(** * motorhat: register protocol and motor layer of the PCA9685 motor HAT driver

    A shallow embedding of [motorhat.go].  Go [int] values are integers of
    [Z]; [uint8] values are integers of [Z] kept in [0, 256) by [uint8];
    [float64] values are IEEE 754 binary64 numbers ([spec_float] at precision
    53, round to nearest even); the I2C bus is a device with explicit state
    whose transactions are recorded in a trace. *)

From Stdlib Require Import ZArith QArith Qround Lia List String SpecFloat.
From stdpp Require Import base gmap.
Import ListNotations.
Local Open Scope Z_scope.

(** ** Machine integers *)

(** Conversion of an [int] to [uint8]: the low eight bits. *)
Definition uint8 (x : Z) : Z := x mod 256.

(** Two's complement wrap-around of a [w]-bit signed integer. *)
Definition wrap_int (w : Z) (x : Z) : Z :=
  (x + 2 ^ (w - 1)) mod 2 ^ w - 2 ^ (w - 1).

(** ** float64 *)

Module Float64.

Definition prec : Z := 53.
Definition emax : Z := 1024.

Definition float64 : Type := spec_float.

(** [float64(z)] for an integer [z]: the nearest binary64 number. *)
Definition of_int (z : Z) : float64 := binary_normalize prec emax z 0 false.

Definition add : float64 -> float64 -> float64 := SFadd prec emax.
Definition sub : float64 -> float64 -> float64 := SFsub prec emax.
Definition div : float64 -> float64 -> float64 := SFdiv prec emax.

(** The constant [0.05]: the binary64 number nearest to 1/20,
    [0x1.999999999999ap-5]. *)
Definition c0_05 : float64 := S754_finite false 7205759403792794 (-57).

(** The integer [floor (+-m * 2^e)]. *)
Definition floorZ (s : bool) (m : positive) (e : Z) : Z :=
  Z.shiftl (cond_Zopp s (Zpos m)) e.

(** The integer part of [+-m * 2^e], rounded toward zero. *)
Definition truncZ (s : bool) (m : positive) (e : Z) : Z :=
  cond_Zopp s (Z.shiftl (Zpos m) e).

(** [math.Floor]: zeros, infinities and NaN are returned unchanged. *)
Definition Floor (x : float64) : float64 :=
  match x with
  | S754_finite s m e => binary_normalize prec emax (floorZ s m e) 0 false
  | _ => x
  end.

(** [uint8(x)] for a [float64]: the fraction is discarded.  Where the
    integer part does not fit in [uint8] Go leaves the result to the
    implementation: it is [unrepr x]. *)
Definition to_uint8 (unrepr : float64 -> Z) (x : float64) : Z :=
  match x with
  | S754_zero _ => 0
  | S754_finite s m e =>
      let z := truncZ s m e in
      if (0 <=? z) && (z <=? 255) then z else uint8 (unrepr x)
  | _ => uint8 (unrepr x)
  end.

End Float64.

(** The value [ps] of [setPWMFreq] after line 192. *)
Definition prescale (freq : Z) : Float64.float64 :=
  let ps := Float64.of_int 25000000 in
  let ps := Float64.div ps (Float64.of_int 4096) in
  let ps := Float64.div ps (Float64.of_int freq) in
  let ps := Float64.sub ps (Float64.of_int 1) in
  Float64.Floor (Float64.add ps Float64.c0_05).

(** The byte [uint8(math.Floor(ps))] written to the prescale register. *)
Definition prescale_byte (unrepr : Float64.float64 -> Z) (freq : Z) : Z :=
  Float64.to_uint8 unrepr (Float64.Floor (prescale freq)).

(** The formula of the specification over the rationals:
    [floor (25_000_000 / 4096 / f - 1 + 0.05)]. *)
Definition prescale_reference (f : Z) : Z :=
  Qfloor (inject_Z 25000000 / inject_Z 4096 / inject_Z f - inject_Z 1 + (5 # 100))%Q.

(** ** Errors, bus transactions and the I2C collaborator *)

(** A Go [error] value: one reported by the [i2c] package, or one built by
    [fmt.Errorf] from a message.  A nil [error] is [None]. *)
Inductive error : Type :=
  | I2CError (code : Z)
  | Errorf (msg : string).

(** What the driver does to the outside world, in order: register writes and
    reads with their outcome, [time.Sleep] with its duration in nanoseconds,
    and closing the bus. *)
Inductive event : Type :=
  | EvWrite (reg val : Z) (res : option error)
  | EvRead (reg val : Z) (res : option error)
  | EvSleep (ns : Z)
  | EvClose.

(** The [i2c] package over a device whose state has type [D]. *)
Record I2C (D : Type) : Type := {
  I2C_New : Z -> Z -> D + error;
  I2C_WriteRegister : Z -> Z -> D -> option error * D;
  I2C_ReadRegister : Z -> D -> Z * option error * D;
  I2C_Close : D -> D
}.
Arguments I2C_New {D} _ _ _.
Arguments I2C_WriteRegister {D} _ _ _ _.
Arguments I2C_ReadRegister {D} _ _ _.
Arguments I2C_Close {D} _ _.

(** The register writes of a trace: register, byte and outcome. *)
Definition writes_of (tr : list event) : list (Z * Z * option error) :=
  flat_map (fun ev => match ev with
                      | EvWrite r v res => [(r, v, res)]
                      | _ => []
                      end) tr.

(** Two simulated devices.  [regfile] is a bank of registers on a bus that
    never fails; [flaky] is a bus on which the first [n] transactions succeed
    and every later one fails with [EIO]. *)
Module Sim.

Definition EIO : error := I2CError 5.

Definition regfile : I2C (gmap Z Z) := {|
  I2C_New := fun _ _ => inl ∅;
  I2C_WriteRegister := fun r v d => (None, <[r := v]> d);
  I2C_ReadRegister := fun r d => (default 0 (d !! r), None, d);
  I2C_Close := fun d => d
|}.

Definition flaky : I2C nat := {|
  I2C_New := fun _ _ => inl 0%nat;
  I2C_WriteRegister := fun _ _ n =>
    match n with O => (Some EIO, O) | S n' => (None, n') end;
  I2C_ReadRegister := fun _ n =>
    match n with O => (0, Some EIO, O) | S n' => (0, None, n') end;
  I2C_Close := fun n => n
|}.

(** What an implementation makes of a [float64] that is no [uint8]. *)
Definition saturate (x : Float64.float64) : Z :=
  match x with
  | S754_finite false _ _ | S754_infinity false => 255
  | _ => 0
  end.

End Sim.

(** ** The driver *)

Definition mode1 : Z := 0x00.
Definition mode2 : Z := 0x01.
Definition preescale : Z := 0xFE.
Definition led0OnL : Z := 0x06.
Definition led0OnH : Z := 0x07.
Definition led0OffL : Z := 0x08.
Definition led0OffH : Z := 0x09.
Definition allLedOnL : Z := 0xFA.
Definition allLedOnH : Z := 0xFB.
Definition allLedOffL : Z := 0xFC.
Definition allLedOffH : Z := 0xFD.

Definition sleep : Z := 0x10.
Definition allcall : Z := 0x01.
Definition outdrv : Z := 0x04.

(** [time.Millisecond], in nanoseconds. *)
Definition Millisecond : Z := 1000000.

Definition motorMapPWM : gmap Z Z := {[ 1 := 8; 2 := 13; 3 := 2; 4 := 7 ]}.
Definition motorMapIn1 : gmap Z Z := {[ 1 := 10; 2 := 11; 3 := 4; 4 := 5 ]}.
Definition motorMapIn2 : gmap Z Z := {[ 1 := 9; 2 := 12; 3 := 3; 4 := 6 ]}.

Definition motor_not_found : error := Errorf "Motor map not found!".

Definition getMotor (m : Z) : Z * Z * Z * option error :=
  match motorMapPWM !! m with
  | None => (0, 0, 0, Some motor_not_found)
  | Some pwm =>
      match motorMapIn1 !! m with
      | None => (0, 0, 0, Some motor_not_found)
      | Some in1 =>
          match motorMapIn2 !! m with
          | None => (0, 0, 0, Some motor_not_found)
          | Some in2 => (pwm, in1, in2, None)
          end
      end
  end.

Section Driver.

Variable D : Type.
Variable bus : I2C D.
(** The implementation's conversion of an unrepresentable [float64]. *)
Variable unrepr : Float64.float64 -> Z.

Record MotorHat : Type := { i2c : D }.

(** A method of [*MotorHat]: from the handle to a result, the handle
    afterwards and the transactions performed. *)
Definition M (A : Type) : Type := MotorHat -> A * MotorHat * list event.

Definition ret {A : Type} (a : A) : M A := fun mh => (a, mh, []).

Definition bind {A B : Type} (c : M A) (k : A -> M B) : M B :=
  fun mh =>
    let '(a, mh1, t1) := c mh in
    let '(b, mh2, t2) := k a mh1 in
    (b, mh2, t1 ++ t2).

Definition result {A : Type} (c : M A) (mh : MotorHat) : A := (c mh).1.1.
Definition after {A : Type} (c : M A) (mh : MotorHat) : MotorHat := (c mh).1.2.
Definition trace {A : Type} (c : M A) (mh : MotorHat) : list event := (c mh).2.

Local Notation "x <- c ;; k" := (bind c (fun x => k))
  (at level 100, c at next level, k at level 200, right associativity).
Local Notation "c ;; k" := (bind c (fun _ => k))
  (at level 100, k at level 200, right associativity).

(** [mh.i2c.WriteRegister(r, v)]. *)
Definition WriteRegister (r v : Z) : M (option error) :=
  fun mh =>
    let '(e, d) := I2C_WriteRegister bus r v (i2c mh) in
    (e, {| i2c := d |}, [EvWrite r v e]).

(** [mh.i2c.ReadRegister(r)]: the value read is a [uint8]. *)
Definition ReadRegister (r : Z) : M (Z * option error) :=
  fun mh =>
    let '(v, e, d) := I2C_ReadRegister bus r (i2c mh) in
    ((uint8 v, e), {| i2c := d |}, [EvRead r (uint8 v) e]).

(** [time.Sleep(ns)]. *)
Definition Sleep (ns : Z) : M unit := fun mh => (tt, mh, [EvSleep ns]).

(** [mh.Close()]. *)
Definition Close : M unit :=
  fun mh => (tt, {| i2c := I2C_Close bus (i2c mh) |}, [EvClose]).

(** The closure [writeReg] of [setPWM], [setAllPWM] and [setPWMFreq]; the
    variable [err] it captures is passed in and its new value returned. *)
Definition writeReg (err : option error) (r v : Z) : M (option error) :=
  match err with
  | Some _ => ret err
  | None => WriteRegister r v
  end.

Definition setPWM (pin on off : Z) : M (option error) :=
  err <- writeReg None (uint8 (led0OnL + uint8 (4 * pin))) (uint8 (Z.land on 0xFF)) ;;
  err <- writeReg err (uint8 (led0OnH + uint8 (4 * pin))) (uint8 (Z.shiftr on 8)) ;;
  err <- writeReg err (uint8 (led0OffL + uint8 (4 * pin))) (uint8 (Z.land off 0xFF)) ;;
  err <- writeReg err (uint8 (led0OffH + uint8 (4 * pin))) (uint8 (Z.shiftr off 8)) ;;
  ret err.

Definition setAllPWM (on off : Z) : M (option error) :=
  err <- writeReg None allLedOnL (uint8 (Z.land on 0xFF)) ;;
  err <- writeReg err allLedOnH (uint8 (Z.shiftr on 8)) ;;
  err <- writeReg err allLedOffL (uint8 (Z.land off 0xFF)) ;;
  err <- writeReg err allLedOffH (uint8 (Z.shiftr off 8)) ;;
  ret err.

Definition setPWMFreq (freq : Z) : M (option error) :=
  let ps := prescale freq in
  r <- ReadRegister mode1 ;;
  let '(oldmode, err) := r in
  match err with
  | Some _ => ret err
  | None =>
      let newmode := Z.lor (Z.land oldmode 0x7F) sleep in
      err <- writeReg err mode1 newmode ;;
      err <- writeReg err preescale (Float64.to_uint8 unrepr (Float64.Floor ps)) ;;
      err <- writeReg err mode1 oldmode ;;
      Sleep (5 * Millisecond) ;;
      err <- writeReg err mode1 (Z.lor oldmode 0x80) ;;
      ret err
  end.

Definition initPWM : M (option error) :=
  err <- WriteRegister mode2 outdrv ;;
  match err with
  | Some _ => ret err
  | None =>
      err <- WriteRegister mode1 allcall ;;
      match err with
      | Some _ => ret err
      | None =>
          Sleep (5 * Millisecond) ;;
          r <- ReadRegister mode1 ;;
          let '(m, err) := r in
          match err with
          | Some _ => ret err
          | None =>
              let m := Z.ldiff m sleep in
              err <- WriteRegister mode1 m ;;
              match err with
              | Some _ => ret err
              | None => Sleep (5 * Millisecond) ;; ret None
              end
          end
      end
  end.

Definition setPin (pin value : Z) : M (option error) :=
  (if value =? 1 then setPWM pin 4096 0 ;; ret tt
   else if value =? 0 then setPWM pin 0 4096 ;; ret tt
   else ret tt) ;;
  ret None.

Definition Speed (m s : Z) : M (option error) :=
  let '(pwm, _, _, err) := getMotor m in
  match err with
  | Some _ => ret err
  | None =>
      let s := if s <? 0 then 0 else if s >? 255 then 255 else s in
      setPWM pwm 0 (s * 16) ;;
      ret None
  end.

Definition Forward (m : Z) : M (option error) :=
  let '(_, in1, in2, err) := getMotor m in
  match err with
  | Some _ => ret err
  | None => setPin in1 1 ;; setPin in2 0 ;; ret None
  end.

Definition Backward (m : Z) : M (option error) :=
  let '(_, in1, in2, err) := getMotor m in
  match err with
  | Some _ => ret err
  | None => setPin in1 0 ;; setPin in2 1 ;; ret None
  end.

Definition Stop (m : Z) : M (option error) :=
  let '(_, in1, in2, err) := getMotor m in
  match err with
  | Some _ => ret err
  | None => setPin in1 0 ;; setPin in2 0 ;; ret None
  end.

Definition init : M (option error) :=
  err <- setAllPWM 0 0 ;;
  match err with
  | Some _ => ret err
  | None =>
      err <- initPWM ;;
      match err with
      | Some _ => ret err
      | None =>
          err <- setPWMFreq 1600 ;;
          match err with
          | Some _ => ret err
          | None => ret None
          end
      end
  end.

(** [Open]: the handle or the error, with the transactions performed. *)
Definition Open (addr bus_no : Z) : (MotorHat + error) * list event :=
  match I2C_New bus (uint8 addr) bus_no with
  | inr err => (inr err, [])
  | inl d =>
      let mh := {| i2c := d |} in
      let '(err, mh1, t1) := init mh in
      match err with
      | Some e => let '(_, _, t2) := Close mh1 in (inr e, t1 ++ t2)
      | None => (inl mh1, t1)
      end
  end.

End Driver.

Arguments i2c {D} _.
Arguments result {D A} _ _.
Arguments after {D A} _ _.
Arguments trace {D A} _ _.
Arguments setPWM {D} bus pin on off _.
Arguments setAllPWM {D} bus on off _.
Arguments setPWMFreq {D} bus unrepr freq _.
Arguments initPWM {D} bus _.
Arguments setPin {D} bus pin value _.
Arguments Speed {D} bus m s _.
Arguments Forward {D} bus m _.
Arguments Backward {D} bus m _.
Arguments Stop {D} bus m _.
Arguments init {D} bus unrepr _.
Arguments Open {D} bus unrepr addr bus_no.
Arguments ret {D A} _ _.
Arguments bind {D A B} _ _ _.
Arguments writeReg {D} bus err r v _.
Arguments WriteRegister {D} bus r v _.

(** ** Write sequences *)

(** The four register writes that [setPWM] attempts, in order. *)
Definition duty_bytes (pin on off : Z) : list (Z * Z) :=
  [ (uint8 (led0OnL + uint8 (4 * pin)), uint8 (Z.land on 0xFF));
    (uint8 (led0OnH + uint8 (4 * pin)), uint8 (Z.shiftr on 8));
    (uint8 (led0OffL + uint8 (4 * pin)), uint8 (Z.land off 0xFF));
    (uint8 (led0OffH + uint8 (4 * pin)), uint8 (Z.shiftr off 8)) ].

(** The four register writes that [setAllPWM] attempts, in order. *)
Definition all_duty_bytes (on off : Z) : list (Z * Z) :=
  [ (allLedOnL, uint8 (Z.land on 0xFF));
    (allLedOnH, uint8 (Z.shiftr on 8));
    (allLedOffL, uint8 (Z.land off 0xFF));
    (allLedOffH, uint8 (Z.shiftr off 8)) ].

(** The writes of a list through [writeReg], each one seeing the error left
    by the ones before it. *)
Fixpoint chain {D : Type} (bus : I2C D) (err : option error)
    (ws : list (Z * Z)) : M D (option error) :=
  match ws with
  | [] => ret err
  | (r, v) :: ws' => bind (writeReg bus err r v) (fun err' => chain bus err' ws')
  end.

(** [short_circuit ws tr res]: the trace [tr] writes the registers of [ws] in
    order, stops at the first write that fails, and [res] is that failure, or
    nil when all of [ws] was written. *)
Inductive short_circuit : list (Z * Z) -> list event -> option error -> Prop :=
  | sc_done : short_circuit [] [] None
  | sc_ok r v ws tr res :
      short_circuit ws tr res ->
      short_circuit ((r, v) :: ws) (EvWrite r v None :: tr) res
  | sc_fail r v ws e :
      short_circuit ((r, v) :: ws) [EvWrite r v (Some e)] (Some e).

(** The three multi-register write sequences of the driver. *)
Inductive write_sequence {D : Type} (bus : I2C D)
    (unrepr : Float64.float64 -> Z) : M D (option error) -> Prop :=
  | seq_setPWM pin on off : write_sequence bus unrepr (setPWM bus pin on off)
  | seq_setAllPWM on off : write_sequence bus unrepr (setAllPWM bus on off)
  | seq_setPWMFreq freq : write_sequence bus unrepr (setPWMFreq bus unrepr freq).

(** A motor id of the table. *)
Definition known_motor (m : Z) : Prop := 1 <= m <= 4.

(** Four bytes for the four registers of channel [ch], in the order in
    which [setPWM] writes them. *)
Definition channel_regs (ch onL onH offL offH : Z) : list (Z * Z) :=
  [ (led0OnL + 4 * ch, onL); (led0OnH + 4 * ch, onH);
    (led0OffL + 4 * ch, offL); (led0OffH + 4 * ch, offH) ].

(** Decoding a register pair: low byte and high byte. *)
Definition decode (lo hi : Z) : Z := lo + 256 * hi.

(** [is_uint8 x z]: the [float64] [x] is the integer [z], a [uint8]. *)
Definition is_uint8 (x : Float64.float64) (z : Z) : bool :=
  match x with
  | S754_zero _ => z =? 0
  | S754_finite s m e =>
      (Float64.truncZ s m e =? z) && (0 <=? z) && (z <=? 255)
  | _ => false
  end.

(** ** Bus transactions of a trace *)

(** The outcomes of the register writes and reads of a trace, in order. *)
Definition outcomes (tr : list event) : list (option error) :=
  flat_map (fun ev => match ev with
                      | EvWrite _ _ res | EvRead _ _ res => [res]
                      | _ => []
                      end) tr.

(** The durations of the sleeps of a trace, in order. *)
Definition sleeps (tr : list event) : list Z :=
  flat_map (fun ev => match ev with EvSleep ns => [ns] | _ => [] end) tr.

(** Reading outcomes in order against a result: a failed transaction is the
    last one and its error is the result; without a failure the result is
    nil. *)
Fixpoint fail_fast_from (os : list (option error)) (res : option error) : Prop :=
  match os with
  | [] => res = None
  | Some e :: os' => os' = [] /\ res = Some e
  | None :: os' => fail_fast_from os' res
  end.

Definition fail_fast (tr : list event) (res : option error) : Prop :=
  fail_fast_from (outcomes tr) res.

(** The four motor commands, each with the motor id it is given. *)
Inductive motor_command {D : Type} (bus : I2C D) : Z -> M D (option error) -> Prop :=
  | cmd_Speed m s : motor_command bus m (Speed bus m s)
  | cmd_Forward m : motor_command bus m (Forward bus m)
  | cmd_Backward m : motor_command bus m (Backward bus m)
  | cmd_Stop m : motor_command bus m (Stop bus m).

(** The channel whose four registers include the register [r]. *)
Definition channel_of_reg (r : Z) : Z := (r - led0OnL) / 4.

(** The channels of a motor of the table; none for any other id. *)
Definition motor_channels (m : Z) : list Z :=
  match getMotor m with
  | (pwm, in1, in2, None) => [pwm; in1; in2]
  | _ => []
  end.

(** [pin_writes ch level t]: the trace [t] writes, as far as the bus lets
    it, the four bytes that force channel [ch] high ([level = true]: 0, 16,
    0, 0) or low ([level = false]: 0, 0, 0, 16). *)
Definition pin_writes (ch : Z) (level : bool) (t : list event) : Prop :=
  exists res,
    short_circuit (if level then channel_regs ch 0 0x10 0 0
                   else channel_regs ch 0 0 0 0x10) t res.

(** * Properties *)

(** ** Machine arithmetic *)

Lemma uint8_range (x : Z) : 0 <= uint8 x < 256.
Proof. unfold uint8. apply Z.mod_pos_bound. lia. Qed.

Lemma uint8_small (x : Z) : 0 <= x < 256 -> uint8 x = x.
Proof. intros H. unfold uint8. apply Z.mod_small. exact H. Qed.

(** The low eight bits of an [int] do not depend on its width: the model may
    compute [4 * pin] in [Z] although Go wraps it to 32 or 64 bits. *)
Lemma uint8_wrap_int (w x : Z) : 8 <= w -> uint8 (wrap_int w x) = uint8 x.
Proof.
  intros Hw. unfold uint8, wrap_int.
  assert (E : 2 ^ w = 2 ^ (w - 8) * 256).
  { change 256 with (2 ^ 8). rewrite <- Z.pow_add_r by lia. f_equal. lia. }
  assert (P : 0 < 2 ^ w) by (apply Z.pow_pos_nonneg; lia).
  pose proof (Z.div_mod (x + 2 ^ (w - 1)) (2 ^ w) ltac:(lia)) as Hdm.
  set (q := (x + 2 ^ (w - 1)) / 2 ^ w) in Hdm.
  replace ((x + 2 ^ (w - 1)) mod 2 ^ w - 2 ^ (w - 1))
    with (x + (- q * 2 ^ (w - 8)) * 256) by (rewrite E in Hdm at 1; lia).
  apply Z_mod_plus_full.
Qed.

Lemma land_255 (x : Z) : Z.land x 0xFF = x mod 256.
Proof. change 0xFF with (Z.ones 8). rewrite Z.land_ones by lia. reflexivity. Qed.

Lemma shiftr_8 (x : Z) : Z.shiftr x 8 = x / 256.
Proof. rewrite Z.shiftr_div_pow2 by lia. reflexivity. Qed.

(** The bytes of a 16-bit value put it back together. *)
Lemma decode_bytes (x : Z) :
  0 <= x < 65536 ->
  decode (uint8 (Z.land x 0xFF)) (uint8 (Z.shiftr x 8)) = x.
Proof.
  intros H. unfold decode. rewrite land_255, shiftr_8.
  rewrite !uint8_small.
  - pose proof (Z.div_mod x 256). lia.
  - split; [apply Z.div_pos; lia | apply Z.div_lt_upper_bound; lia].
  - apply Z.mod_pos_bound. lia.
Qed.

(** ** float64 *)

Lemma c0_05_nearest :
  Float64.div (Float64.of_int 1) (Float64.of_int 20) = Float64.c0_05.
Proof. vm_compute. reflexivity. Qed.

Lemma is_uint8_to_uint8 (unrepr : Float64.float64 -> Z) x z :
  is_uint8 x z = true -> Float64.to_uint8 unrepr x = z.
Proof.
  destruct x as [s| s | |s m e]; simpl; try discriminate.
  - intros H. apply Z.eqb_eq in H. congruence.
  - intros H. apply andb_prop in H as [H H3].
    apply andb_prop in H as [H1 H2].
    apply Z.eqb_eq in H1. rewrite H1, H2, H3. reflexivity.
Qed.

(** Every frequency of the operating range, checked by evaluation. *)
Lemma prescale_operating_range :
  forallb (fun f => is_uint8 (Float64.Floor (prescale f)) (prescale_reference f))
          (seqZ 40 1561) = true.
Proof. vm_compute. reflexivity. Qed.

Lemma prescale_byte_reference (unrepr : Float64.float64 -> Z) (f : Z) :
  40 <= f <= 1600 -> prescale_byte unrepr f = prescale_reference f.
Proof.
  intros Hf. unfold prescale_byte. apply is_uint8_to_uint8.
  pose proof prescale_operating_range as H.
  rewrite forallb_forall in H. apply H.
  apply list_elem_of_In, elem_of_seqZ. lia.
Qed.

(** ** Traces of the write sequences *)

Section Traces.

Context {D : Type} (bus : I2C D).

Lemma writeReg_failed e r v mh :
  writeReg bus (Some e) r v mh = (Some e, mh, []).
Proof. reflexivity. Qed.

Lemma chain_failed e ws mh : chain bus (Some e) ws mh = (Some e, mh, []).
Proof.
  revert mh. induction ws as [|[r v] ws IH]; intros mh; [reflexivity|].
  cbn [chain]. unfold bind. rewrite writeReg_failed, IH. reflexivity.
Qed.

Lemma chain_short_circuit ws mh :
  short_circuit ws (trace (chain bus None ws) mh) (result (chain bus None ws) mh).
Proof.
  revert mh. induction ws as [|[r v] ws IH]; intros mh.
  - constructor.
  - unfold trace, result in *. cbn [chain writeReg]. unfold bind, WriteRegister.
    destruct (I2C_WriteRegister bus r v (i2c mh)) as [[e|] d].
    + rewrite chain_failed. simpl. constructor.
    + specialize (IH {| i2c := d |}).
      destruct (chain bus None ws {| i2c := d |}) as [[res mh'] tr].
      simpl in *. constructor. exact IH.
Qed.

Lemma setPWM_chain pin on off :
  setPWM bus pin on off = chain bus None (duty_bytes pin on off).
Proof. reflexivity. Qed.

Lemma setAllPWM_chain on off :
  setAllPWM bus on off = chain bus None (all_duty_bytes on off).
Proof. reflexivity. Qed.

Lemma setPWM_short_circuit pin on off mh :
  short_circuit (duty_bytes pin on off)
    (trace (setPWM bus pin on off) mh) (result (setPWM bus pin on off) mh).
Proof. rewrite setPWM_chain. apply chain_short_circuit. Qed.

(** In a short-circuiting trace a failed write is the last one, and its
    error is the result. *)
Lemma short_circuit_first_failure ws tr res (i : nat) r v e :
  short_circuit ws tr res ->
  writes_of tr !! i = Some (r, v, Some e) ->
  length (writes_of tr) = S i /\ res = Some e.
Proof.
  intros H. revert i. induction H as [|r0 v0 ws tr res H IH|r0 v0 ws e0]; intros i Hi.
  - discriminate.
  - destruct i as [|i]; simpl in Hi; [discriminate|].
    destruct (IH i Hi) as [Hl Hr]. simpl. split; [now rewrite Hl | exact Hr].
  - destruct i as [|i]; simpl in Hi; [|discriminate].
    injection Hi as _ _ ->. split; reflexivity.
Qed.

End Traces.

(** ** The motor table *)

Lemma known_motor_cases (m : Z) :
  known_motor m -> m = 1 \/ m = 2 \/ m = 3 \/ m = 4.
Proof. unfold known_motor. lia. Qed.

Lemma getMotor_unknown (m : Z) :
  ~ known_motor m -> getMotor m = (0, 0, 0, Some motor_not_found).
Proof.
  unfold known_motor. intros H.
  assert (E : motorMapPWM !! m = None).
  { unfold motorMapPWM. rewrite !lookup_insert_ne by lia.
    apply lookup_singleton_ne. lia. }
  unfold getMotor. rewrite E. reflexivity.
Qed.

Lemma getMotor_known (m : Z) :
  known_motor m ->
  exists pwm in1 in2,
    getMotor m = (pwm, in1, in2, None) /\ motorMapPWM !! m = Some pwm /\
    motorMapIn1 !! m = Some in1 /\ motorMapIn2 !! m = Some in2 /\
    0 <= pwm <= 15.
Proof.
  intros H. destruct (known_motor_cases m H) as [-> | [-> | [-> | ->]]].
  - exists 8, 10, 9. repeat split; (reflexivity || lia).
  - exists 13, 11, 12. repeat split; (reflexivity || lia).
  - exists 2, 4, 3. repeat split; (reflexivity || lia).
  - exists 7, 5, 6. repeat split; (reflexivity || lia).
Qed.

(** ** The motor layer *)

Section Motors.

Context {D : Type} (bus : I2C D).

(** A call whose result is dropped, followed by [return nil]. *)
Lemma drop_result {A : Type} (c : M D A) (mh : MotorHat D) :
  bind c (fun _ => ret (@None error)) mh = (None, after c mh, trace c mh).
Proof.
  unfold bind, ret, after, trace. destruct (c mh) as [[a mh'] t].
  simpl. rewrite app_nil_r. reflexivity.
Qed.

Lemma setPin_1 pin mh :
  setPin bus pin 1 mh =
  (None, after (setPWM bus pin 4096 0) mh, trace (setPWM bus pin 4096 0) mh).
Proof.
  unfold setPin. cbn [Z.eqb Pos.eqb]. rewrite drop_result.
  unfold after, trace, bind, ret.
  destruct (setPWM bus pin 4096 0 mh) as [[a mh'] t]. simpl.
  rewrite app_nil_r. reflexivity.
Qed.

Lemma setPin_0 pin mh :
  setPin bus pin 0 mh =
  (None, after (setPWM bus pin 0 4096) mh, trace (setPWM bus pin 0 4096) mh).
Proof.
  unfold setPin. cbn [Z.eqb Pos.eqb]. rewrite drop_result.
  unfold after, trace, bind, ret.
  destruct (setPWM bus pin 0 4096 mh) as [[a mh'] t]. simpl.
  rewrite app_nil_r. reflexivity.
Qed.

Lemma setPin_other pin value mh :
  value <> 0 -> value <> 1 -> setPin bus pin value mh = (None, mh, []).
Proof.
  intros H0 H1. unfold setPin.
  destruct (Z.eqb_spec value 1) as [|_]; [contradiction|].
  destruct (Z.eqb_spec value 0) as [|_]; [contradiction|].
  reflexivity.
Qed.

(** Two pin writes in a row, then [return nil]. *)
Lemma two_pins p1 v1 p2 v2 mh :
  bind (setPin bus p1 v1) (fun _ => bind (setPin bus p2 v2) (fun _ => ret None)) mh =
  (@None error,
   after (setPin bus p2 v2) (after (setPin bus p1 v1) mh),
   trace (setPin bus p1 v1) mh ++ trace (setPin bus p2 v2) (after (setPin bus p1 v1) mh)).
Proof.
  unfold bind, ret, after, trace.
  destruct (setPin bus p1 v1 mh) as [[a mh1] t1]. simpl.
  destruct (setPin bus p2 v2 mh1) as [[b mh2] t2]. simpl.
  rewrite app_nil_r. reflexivity.
Qed.

Lemma Speed_known m v mh pwm in1 in2 :
  getMotor m = (pwm, in1, in2, None) ->
  Speed bus m v mh =
  let s := if v <? 0 then 0 else if v >? 255 then 255 else v in
  (None, after (setPWM bus pwm 0 (s * 16)) mh, trace (setPWM bus pwm 0 (s * 16)) mh).
Proof. intros E. unfold Speed. rewrite E. cbv zeta. apply drop_result. Qed.

End Motors.

(** * Specification properties *)

(** The trace of [Speed] on a motor of the table: the four writes, cut
    short only by a failure of the bus, of [on = 0] and [off = s * 16] to the
    registers of the PWM channel, [s] being the value clamped to [0, 255]. *)
Lemma Speed_writes {D : Type} (bus : I2C D) (m v pwm in1 in2 : Z) (mh : MotorHat D) :
  getMotor m = (pwm, in1, in2, None) -> 0 <= pwm <= 15 ->
  let s := if v <? 0 then 0 else if v >? 255 then 255 else v in
  short_circuit (channel_regs pwm 0 0 (s * 16 mod 256) (s * 16 / 256))
    (trace (Speed bus m v) mh) (result (setPWM bus pwm 0 (s * 16)) mh).
Proof.
  intros E Hr. cbv zeta.
  set (s := if v <? 0 then 0 else if v >? 255 then 255 else v).
  assert (Hs : 0 <= s <= 255).
  { subst s. destruct (Z.ltb_spec v 0); [lia|].
    destruct (Z.gtb_spec v 255); lia. }
  unfold trace at 1. rewrite (Speed_known bus m v mh pwm in1 in2 E).
  cbv zeta. fold s. cbn [snd].
  pose proof (setPWM_short_circuit bus pwm 0 (s * 16) mh) as H.
  unfold channel_regs, duty_bytes, led0OnL, led0OnH, led0OffL, led0OffH in *.
  rewrite (uint8_small (4 * pwm)) in H by lia.
  rewrite !(uint8_small (_ + 4 * pwm)) in H by lia.
  rewrite (land_255 (s * 16)), (shiftr_8 (s * 16)) in H.
  rewrite (uint8_small (_ mod 256)) in H by (apply Z.mod_pos_bound; lia).
  rewrite (uint8_small (_ / 256)) in H
    by (split; [apply Z.div_pos; lia | apply Z.div_lt_upper_bound; lia]).
  exact H.
Qed.

(** C3: for a motor of the table, with [pwm] its PWM channel, [Speed]
    returns nil and its trace is the write, cut short only by a failure of
    the bus, of four bytes to the registers [led0OnL + 4 * pwm] and the three
    after it.  With a negative value the bytes are those of [on = 0],
    [off = 0] and the call does what [Speed] with 0 does; with a value above
    255 they are those of [on = 0], [off = 255 * 16] and the call does what
    [Speed] with 255 does; with a value [v] of [0, 255] they are 0, 0 and the
    low and high byte of [v * 16], which decode to [off = v * 16]. *)
Theorem Speed_clamps_and_scales {D : Type} (bus : I2C D) (m v : Z) (mh : MotorHat D) :
  known_motor m ->
  exists pwm,
    motorMapPWM !! m = Some pwm /\
    result (Speed bus m v) mh = None /\
    (v < 0 ->
     Speed bus m v mh = Speed bus m 0 mh /\
     exists res,
       short_circuit (channel_regs pwm 0 0 0 0) (trace (Speed bus m v) mh) res) /\
    (255 < v ->
     Speed bus m v mh = Speed bus m 255 mh /\
     exists res,
       short_circuit (channel_regs pwm 0 0 (255 * 16 mod 256) (255 * 16 / 256))
         (trace (Speed bus m v) mh) res) /\
    (0 <= v <= 255 ->
     Speed bus m v mh =
       (None, after (setPWM bus pwm 0 (v * 16)) mh,
        trace (setPWM bus pwm 0 (v * 16)) mh) /\
     decode (v * 16 mod 256) (v * 16 / 256) = v * 16 /\
     exists res,
       short_circuit (channel_regs pwm 0 0 (v * 16 mod 256) (v * 16 / 256))
         (trace (Speed bus m v) mh) res).
Proof.
  intros Hm.
  destruct (getMotor_known m Hm) as (pwm & in1 & in2 & E & Hpwm & _ & _ & Hr).
  pose proof (Speed_writes bus m v pwm in1 in2 mh E Hr) as Hw. cbv zeta in Hw.
  exists pwm. split; [exact Hpwm|].
  split.
  { unfold result. rewrite (Speed_known bus m v mh pwm in1 in2 E). reflexivity. }
  rewrite !(Speed_known bus m _ mh pwm in1 in2 E). cbv zeta.
  split; [|split].
  - intros Hv. destruct (Z.ltb_spec v 0); [|lia].
    split; [reflexivity|]. eexists. exact Hw.
  - intros Hv. destruct (Z.ltb_spec v 0); [lia|].
    destruct (Z.gtb_spec v 255); [|lia].
    split; [reflexivity|]. eexists. exact Hw.
  - intros Hv. destruct (Z.ltb_spec v 0); [lia|].
    destruct (Z.gtb_spec v 255); [lia|].
    split; [reflexivity|]. split.
    + unfold decode. pose proof (Z.div_mod (v * 16) 256). lia.
    + eexists. exact Hw.
Qed.

Lemma Speed_clamps_and_scales_witness :
  let mh := {| i2c := 2%nat |} in
  (Speed Sim.flaky 1 (-3) mh = Speed Sim.flaky 1 0 mh /\
   exists res,
     short_circuit (channel_regs 8 0 0 0 0) (trace (Speed Sim.flaky 1 (-3)) mh) res) /\
  (Speed Sim.flaky 1 300 mh = Speed Sim.flaky 1 255 mh /\
   exists res,
     short_circuit (channel_regs 8 0 0 240 15) (trace (Speed Sim.flaky 1 300) mh) res) /\
  (Speed Sim.flaky 1 128 mh =
     (None, after (setPWM Sim.flaky 8 0 (128 * 16)) mh,
      trace (setPWM Sim.flaky 8 0 (128 * 16)) mh) /\
   decode 0 8 = 2048 /\
   exists res,
     short_circuit (channel_regs 8 0 0 0 8) (trace (Speed Sim.flaky 1 128) mh) res).
Proof.
  intros mh.
  assert (Hm : known_motor 1) by (unfold known_motor; lia).
  split; [|split].
  - destruct (Speed_clamps_and_scales Sim.flaky 1 (-3) mh Hm)
      as (pwm & Hp & _ & H & _ & _).
    injection Hp as <-. apply H. lia.
  - destruct (Speed_clamps_and_scales Sim.flaky 1 300 mh Hm)
      as (pwm & Hp & _ & _ & H & _).
    injection Hp as <-. apply H. lia.
  - destruct (Speed_clamps_and_scales Sim.flaky 1 128 mh Hm)
      as (pwm & Hp & _ & _ & _ & H).
    injection Hp as <-. apply H. lia.
Defined.

(** C4: for every channel, [setPin] with value 1 attempts exactly the write
    of the duty pair [on = 4096], [off = 0] (bytes 0, 16, 0, 0 to the four
    registers of the channel), with value 0 the write of [on = 0],
    [off = 4096] (bytes 0, 0, 0, 16), and with any other value it performs no
    transaction at all; in every case it returns nil. *)
Theorem setPin_full_on_full_off {D : Type} (bus : I2C D) (pin : Z) (mh : MotorHat D) :
  (setPin bus pin 1 mh =
     (None, after (setPWM bus pin 4096 0) mh, trace (setPWM bus pin 4096 0) mh) /\
   map snd (duty_bytes pin 4096 0) = [0; 16; 0; 0] /\
   exists res, short_circuit (duty_bytes pin 4096 0) (trace (setPin bus pin 1) mh) res) /\
  (setPin bus pin 0 mh =
     (None, after (setPWM bus pin 0 4096) mh, trace (setPWM bus pin 0 4096) mh) /\
   map snd (duty_bytes pin 0 4096) = [0; 0; 0; 16] /\
   exists res, short_circuit (duty_bytes pin 0 4096) (trace (setPin bus pin 0) mh) res) /\
  (forall value, value <> 0 -> value <> 1 ->
   setPin bus pin value mh = (None, mh, [])).
Proof.
  repeat split.
  - apply setPin_1.
  - eexists. unfold trace at 1. rewrite setPin_1. apply setPWM_short_circuit.
  - apply setPin_0.
  - eexists. unfold trace at 1. rewrite setPin_0. apply setPWM_short_circuit.
  - intros value H0 H1. apply setPin_other; assumption.
Qed.

Lemma setPin_full_on_full_off_witness :
  setPin Sim.regfile 4 7 {| i2c := ∅ |} = (None, {| i2c := ∅ |}, []).
Proof.
  apply (setPin_full_on_full_off Sim.regfile 4 {| i2c := ∅ |}); lia.
Defined.

(** C5: for a channel of [0, 15] and [on], [off] of [0, 4095], the write
    sequence of [setPWM] is that of four bytes to the registers
    [led0OnL + 4 * channel] and the three after it, and low byte plus 256
    times high byte gives back [on] and [off]. *)
Theorem setPWM_bytes_decode {D : Type} (bus : I2C D) (channel on off : Z) (mh : MotorHat D) :
  0 <= channel <= 15 -> 0 <= on <= 4095 -> 0 <= off <= 4095 ->
  exists onL onH offL offH,
    short_circuit (channel_regs channel onL onH offL offH)
      (trace (setPWM bus channel on off) mh)
      (result (setPWM bus channel on off) mh) /\
    (0 <= onL < 256 /\ 0 <= onH < 256 /\ 0 <= offL < 256 /\ 0 <= offH < 256) /\
    decode onL onH = on /\ decode offL offH = off.
Proof.
  intros Hc Hon Hoff.
  exists (uint8 (Z.land on 0xFF)), (uint8 (Z.shiftr on 8)),
         (uint8 (Z.land off 0xFF)), (uint8 (Z.shiftr off 8)).
  split; [|split; [|split]].
  - pose proof (setPWM_short_circuit bus channel on off mh) as H.
    unfold channel_regs, duty_bytes, led0OnL, led0OnH, led0OffL, led0OffH in *.
    rewrite (uint8_small (4 * channel)) in H by lia.
    rewrite !(uint8_small (_ + 4 * channel)) in H by lia.
    exact H.
  - repeat split; apply uint8_range.
  - apply decode_bytes. lia.
  - apply decode_bytes. lia.
Qed.

Lemma setPWM_bytes_decode_witness :
  exists onL onH offL offH,
    short_circuit (channel_regs 15 onL onH offL offH)
      (trace (setPWM Sim.regfile 15 4095 1234) {| i2c := ∅ |})
      (result (setPWM Sim.regfile 15 4095 1234) {| i2c := ∅ |}) /\
    (0 <= onL < 256 /\ 0 <= onH < 256 /\ 0 <= offL < 256 /\ 0 <= offH < 256) /\
    decode onL onH = 4095 /\ decode offL offH = 1234.
Proof.
  apply (setPWM_bytes_decode Sim.regfile 15 4095 1234 {| i2c := ∅ |}); lia.
Defined.

(** C6: for a motor id outside 1..4, each of [Speed], [Forward], [Backward]
    and [Stop] returns the error of [getMotor] and performs no transaction:
    the trace is empty and the handle unchanged. *)
Theorem unknown_motor_no_io {D : Type} (bus : I2C D) (m v : Z) (mh : MotorHat D) :
  ~ known_motor m ->
  Speed bus m v mh = (Some motor_not_found, mh, []) /\
  Forward bus m mh = (Some motor_not_found, mh, []) /\
  Backward bus m mh = (Some motor_not_found, mh, []) /\
  Stop bus m mh = (Some motor_not_found, mh, []).
Proof.
  intros H. unfold Speed, Forward, Backward, Stop.
  rewrite (getMotor_unknown m H). repeat split.
Qed.

Lemma unknown_motor_no_io_witness :
  let mh := {| i2c := (∅ : gmap Z Z) |} in
  (Speed Sim.regfile 0 128 mh = (Some motor_not_found, mh, []) /\
   Forward Sim.regfile 0 mh = (Some motor_not_found, mh, []) /\
   Backward Sim.regfile 0 mh = (Some motor_not_found, mh, []) /\
   Stop Sim.regfile 0 mh = (Some motor_not_found, mh, [])) /\
  (Speed Sim.regfile 5 128 mh = (Some motor_not_found, mh, []) /\
   Forward Sim.regfile 5 mh = (Some motor_not_found, mh, []) /\
   Backward Sim.regfile 5 mh = (Some motor_not_found, mh, []) /\
   Stop Sim.regfile 5 mh = (Some motor_not_found, mh, [])).
Proof.
  intros mh. split.
  - apply (unknown_motor_no_io Sim.regfile 0 128 mh). unfold known_motor. lia.
  - apply (unknown_motor_no_io Sim.regfile 5 128 mh). unfold known_motor. lia.
Defined.

(** C10: for a motor of the table and any value, [Speed] writes [on = 0] and
    an [off] that is a multiple of 16 in [0, 4080]: bit 12 of [off] is clear,
    so the byte for the high register of [off] is below 16 and the one for
    the high register of [on] is 0. *)
Theorem Speed_never_full {D : Type} (bus : I2C D) (m v : Z) (mh : MotorHat D) :
  known_motor m ->
  exists pwm off,
    motorMapPWM !! m = Some pwm /\
    Speed bus m v mh =
      (None, after (setPWM bus pwm 0 off) mh, trace (setPWM bus pwm 0 off) mh) /\
    0 <= off <= 4080 /\ off mod 16 = 0 /\ Z.testbit off 12 = false /\
    off / 256 < 16 /\
    exists res,
      short_circuit (channel_regs pwm 0 0 (off mod 256) (off / 256))
        (trace (Speed bus m v) mh) res.
Proof.
  intros Hm.
  destruct (getMotor_known m Hm) as (pwm & in1 & in2 & E & Hpwm & _ & _ & Hr).
  set (s := if v <? 0 then 0 else if v >? 255 then 255 else v).
  assert (Hs : 0 <= s <= 255).
  { subst s. destruct (Z.ltb_spec v 0); [lia|].
    destruct (Z.gtb_spec v 255); lia. }
  exists pwm, (s * 16).
  assert (HS : Speed bus m v mh =
          (None, after (setPWM bus pwm 0 (s * 16)) mh,
           trace (setPWM bus pwm 0 (s * 16)) mh)).
  { rewrite (Speed_known bus m v mh pwm in1 in2 E). reflexivity. }
  split; [exact Hpwm|]. split; [exact HS|].
  split; [lia|]. split; [apply Z.mod_mul; lia|].
  split.
  { apply Z.testbit_false; [lia|].
    rewrite Z.div_small by (change (2 ^ 12) with 4096; lia). reflexivity. }
  split; [apply Z.div_lt_upper_bound; lia|].
  exists (result (setPWM bus pwm 0 (s * 16)) mh).
  unfold trace at 1. rewrite HS. cbn [snd].
  pose proof (setPWM_short_circuit bus pwm 0 (s * 16) mh) as H.
  unfold channel_regs, duty_bytes, led0OnL, led0OnH, led0OffL, led0OffH in *.
  rewrite (uint8_small (4 * pwm)) in H by lia.
  rewrite !(uint8_small (_ + 4 * pwm)) in H by lia.
  rewrite (land_255 (s * 16)), (shiftr_8 (s * 16)) in H.
  rewrite (uint8_small (_ mod 256)) in H by (apply Z.mod_pos_bound; lia).
  rewrite (uint8_small (_ / 256)) in H
    by (split; [apply Z.div_pos; lia | apply Z.div_lt_upper_bound; lia]).
  exact H.
Qed.

Lemma Speed_never_full_witness :
  let mh := {| i2c := 2%nat |} in
  exists pwm off,
    motorMapPWM !! 4 = Some pwm /\
    Speed Sim.flaky 4 1000 mh =
      (None, after (setPWM Sim.flaky pwm 0 off) mh,
       trace (setPWM Sim.flaky pwm 0 off) mh) /\
    0 <= off <= 4080 /\ off mod 16 = 0 /\ Z.testbit off 12 = false /\
    off / 256 < 16 /\
    exists res,
      short_circuit (channel_regs pwm 0 0 (off mod 256) (off / 256))
        (trace (Speed Sim.flaky 4 1000) mh) res.
Proof.
  intros mh. apply (Speed_never_full Sim.flaky 4 1000 mh).
  unfold known_motor. lia.
Defined.

(** The trace of two pin writes: each is a short-circuiting write of the
    bytes of its duty pair. *)
Lemma direction_pins {D : Type} (bus : I2C D) (c : M D (option error))
    (in1 v1 in2 v2 on1 off1 on2 off2 : Z) (mh : MotorHat D) :
  c mh = bind (setPin bus in1 v1)
           (fun _ => bind (setPin bus in2 v2) (fun _ => ret None)) mh ->
  (forall mh', setPin bus in1 v1 mh' =
     (None, after (setPWM bus in1 on1 off1) mh', trace (setPWM bus in1 on1 off1) mh')) ->
  (forall mh', setPin bus in2 v2 mh' =
     (None, after (setPWM bus in2 on2 off2) mh', trace (setPWM bus in2 on2 off2) mh')) ->
  result c mh = None /\
  exists t1 t2 r1 r2,
    trace c mh = t1 ++ t2 /\
    short_circuit (duty_bytes in1 on1 off1) t1 r1 /\
    short_circuit (duty_bytes in2 on2 off2) t2 r2.
Proof.
  intros Hc H1 H2.
  assert (T1 : forall mh', trace (setPin bus in1 v1) mh' =
                           trace (setPWM bus in1 on1 off1) mh')
    by (intros mh'; unfold trace at 1; rewrite H1; reflexivity).
  assert (T2 : forall mh', trace (setPin bus in2 v2) mh' =
                           trace (setPWM bus in2 on2 off2) mh')
    by (intros mh'; unfold trace at 1; rewrite H2; reflexivity).
  unfold result, trace at 1. rewrite Hc, two_pins.
  split; [reflexivity|].
  exists (trace (setPWM bus in1 on1 off1) mh),
         (trace (setPWM bus in2 on2 off2) (after (setPin bus in1 v1) mh)),
         (result (setPWM bus in1 on1 off1) mh),
         (result (setPWM bus in2 on2 off2) (after (setPin bus in1 v1) mh)).
  split; [|split]; try apply setPWM_short_circuit.
  cbn [snd]. rewrite T1, T2. reflexivity.
Qed.

(** C8: [Forward] on motor 3 returns nil and attempts, in this order and
    nothing else, the full-on bytes on channel 4 and the full-off bytes on
    channel 3; [Backward] full-off on channel 4 and full-on on channel 3;
    [Stop] full-off on both.  A write sequence is cut short only by a
    failure of the bus. *)
Theorem motor3_direction_pins {D : Type} (bus : I2C D) (mh : MotorHat D) :
  (result (Forward bus 3) mh = None /\
   exists t1 t2 r1 r2,
     trace (Forward bus 3) mh = t1 ++ t2 /\
     short_circuit (channel_regs 4 0 0x10 0 0) t1 r1 /\
     short_circuit (channel_regs 3 0 0 0 0x10) t2 r2) /\
  (result (Backward bus 3) mh = None /\
   exists t1 t2 r1 r2,
     trace (Backward bus 3) mh = t1 ++ t2 /\
     short_circuit (channel_regs 4 0 0 0 0x10) t1 r1 /\
     short_circuit (channel_regs 3 0 0x10 0 0) t2 r2) /\
  (result (Stop bus 3) mh = None /\
   exists t1 t2 r1 r2,
     trace (Stop bus 3) mh = t1 ++ t2 /\
     short_circuit (channel_regs 4 0 0 0 0x10) t1 r1 /\
     short_circuit (channel_regs 3 0 0 0 0x10) t2 r2).
Proof.
  split; [|split].
  - apply (direction_pins bus (Forward bus 3) 4 1 3 0 4096 0 0 4096 mh);
      [reflexivity | intros; apply setPin_1 | intros; apply setPin_0].
  - apply (direction_pins bus (Backward bus 3) 4 0 3 1 0 4096 4096 0 mh);
      [reflexivity | intros; apply setPin_0 | intros; apply setPin_1].
  - apply (direction_pins bus (Stop bus 3) 4 0 3 0 0 4096 0 4096 mh);
      [reflexivity | intros; apply setPin_0 | intros; apply setPin_0].
Qed.

(** C2, at a failing input: on a bus whose every transaction fails, each of
    [Speed], [Forward], [Backward] and [Stop] on motor 1 attempts its writes,
    sees them fail, and still returns nil. *)
Theorem motor_commands_drop_bus_failure :
  let mh := {| i2c := 0%nat |} in
  Speed Sim.flaky 1 128 mh = (None, mh, [EvWrite 38 0 (Some Sim.EIO)]) /\
  Forward Sim.flaky 1 mh =
    (None, mh, [EvWrite 46 0 (Some Sim.EIO); EvWrite 42 0 (Some Sim.EIO)]) /\
  Backward Sim.flaky 1 mh =
    (None, mh, [EvWrite 46 0 (Some Sim.EIO); EvWrite 42 0 (Some Sim.EIO)]) /\
  Stop Sim.flaky 1 mh =
    (None, mh, [EvWrite 46 0 (Some Sim.EIO); EvWrite 42 0 (Some Sim.EIO)]).
Proof. vm_compute. repeat split. Qed.

(** C7: in each of the three write sequences ([setPWM], [setAllPWM],
    [setPWMFreq]), if the write number [i] fails with [e], then it is the last
    write of the sequence and [e] is the result. *)
Theorem write_sequences_short_circuit {D : Type} (bus : I2C D)
    (unrepr : Float64.float64 -> Z) (c : M D (option error))
    (mh : MotorHat D) (i : nat) (r v : Z) (e : error) :
  write_sequence bus unrepr c ->
  writes_of (trace c mh) !! i = Some (r, v, Some e) ->
  length (writes_of (trace c mh)) = S i /\ result c mh = Some e.
Proof.
  intros Hc Hi. destruct Hc as [pin on off|on off|freq].
  - eapply short_circuit_first_failure; [apply setPWM_short_circuit | exact Hi].
  - rewrite setAllPWM_chain in *.
    eapply short_circuit_first_failure; [apply chain_short_circuit | exact Hi].
  - revert Hi. unfold setPWMFreq. cbv zeta.
    generalize (Float64.to_uint8 unrepr (Float64.Floor (prescale freq))).
    intros b. unfold trace, result, bind, ReadRegister, writeReg,
      WriteRegister, Sleep, ret.
    destruct (I2C_ReadRegister bus mode1 (i2c mh)) as [[m [e0|]] d]; cbn.
    { destruct i; discriminate. }
    repeat match goal with
    | |- context [I2C_WriteRegister bus ?r ?v ?d] =>
        destruct (I2C_WriteRegister bus r v d) as [[?|] ?]; cbn
    end;
    intros Hi;
    repeat (destruct i as [|i]; cbn in Hi; try discriminate);
    injection Hi as _ _ ->; split; reflexivity.
Qed.

Lemma write_sequences_short_circuit_witness :
  let mh := {| i2c := 2%nat |} in
  length (writes_of (trace (setPWM Sim.flaky 8 0 2048) mh)) = 3%nat /\
  result (setPWM Sim.flaky 8 0 2048) mh = Some Sim.EIO.
Proof.
  intros mh.
  apply (write_sequences_short_circuit Sim.flaky Sim.saturate
           (setPWM Sim.flaky 8 0 2048) mh 2 40 0 Sim.EIO).
  - constructor.
  - reflexivity.
Defined.

Lemma prescale_byte_1600 (unrepr : Float64.float64 -> Z) :
  prescale_byte unrepr 1600 = 2.
Proof. apply is_uint8_to_uint8. vm_compute. reflexivity. Qed.

(** C1 (amended): for every frequency [f] of 40..1600 the byte that
    [setPWMFreq] computes, and the one it writes to the prescale register,
    is [floor (25_000_000 / 4096 / f - 1 + 0.05)]; for [f = 1600] it is 2. *)
Theorem setPWMFreq_prescale {D : Type} (bus : I2C D)
    (unrepr : Float64.float64 -> Z) (f : Z) :
  40 <= f <= 1600 ->
  prescale_byte unrepr f = prescale_reference f /\
  prescale_byte unrepr 1600 = 2 /\
  forall mh v res,
    In (EvWrite preescale v res) (trace (setPWMFreq bus unrepr f) mh) ->
    v = prescale_reference f.
Proof.
  intros Hf. split; [apply prescale_byte_reference; exact Hf|].
  split; [apply prescale_byte_1600|].
  intros mh v res. unfold setPWMFreq. cbv zeta.
  change (Float64.to_uint8 unrepr (Float64.Floor (prescale f)))
    with (prescale_byte unrepr f).
  rewrite (prescale_byte_reference unrepr f Hf).
  generalize (prescale_reference f). intros b.
  unfold trace, bind, ReadRegister, writeReg, WriteRegister, Sleep, ret.
  destruct (I2C_ReadRegister bus mode1 (i2c mh)) as [[m [e0|]] d]; cbn.
  { intros [H|[]]. discriminate H. }
  repeat match goal with
  | |- context [I2C_WriteRegister bus ?r ?v ?d] =>
      destruct (I2C_WriteRegister bus r v d) as [[?|] ?]; cbn
  end;
  intros H;
  repeat (destruct H as [H|H]; [try discriminate H|]);
  try contradiction;
  injection H as <- _; reflexivity.
Qed.

Lemma setPWMFreq_prescale_witness :
  prescale_byte Sim.saturate 1600 = prescale_reference 1600 /\
  2 = prescale_reference 1600.
Proof.
  assert (Hf : 40 <= 1600 <= 1600) by lia.
  destruct (setPWMFreq_prescale Sim.regfile Sim.saturate 1600 Hf) as (H1 & _ & H3).
  split; [exact H1|].
  apply (H3 {| i2c := ∅ |} 2 None).
  vm_compute. right. right. left. reflexivity.
Defined.

(** C1 as stated fails at [f = 1600]: the byte computed is 2, not 3. *)
Lemma prescale_1600_is_not_3 :
  prescale_byte Sim.saturate 1600 = 2 /\ prescale_byte Sim.saturate 1600 <> 3 /\
  prescale_reference 1600 = 2.
Proof. vm_compute. repeat split. discriminate. Qed.

(** ** Initialisation on a bus that does not fail *)

Section GoodBus.

Context {D : Type} (bus : I2C D) (unrepr : Float64.float64 -> Z).
Hypothesis writes_succeed : forall r v d, (I2C_WriteRegister bus r v d).1 = None.
Hypothesis reads_succeed : forall r d, (I2C_ReadRegister bus r d).1.2 = None.

Ltac run_bus :=
  repeat match goal with
  | |- context [I2C_WriteRegister bus ?r ?v ?d] =>
      let E := fresh "E" in
      pose proof (writes_succeed r v d) as E;
      destruct (I2C_WriteRegister bus r v d) as [? ?];
      cbn in E; subst; cbn
  | |- context [I2C_ReadRegister bus ?r ?d] =>
      let E := fresh "E" in
      pose proof (reads_succeed r d) as E;
      destruct (I2C_ReadRegister bus r d) as [[? ?] ?];
      cbn in E; subst; cbn
  end.

Lemma init_good mh :
  exists mh' m1 m2,
    init bus unrepr mh =
    (None, mh',
     [ EvWrite allLedOnL 0 None; EvWrite allLedOnH 0 None;
       EvWrite allLedOffL 0 None; EvWrite allLedOffH 0 None;
       EvWrite mode2 outdrv None; EvWrite mode1 allcall None;
       EvSleep (5 * Millisecond);
       EvRead mode1 m1 None; EvWrite mode1 (Z.ldiff m1 sleep) None;
       EvSleep (5 * Millisecond);
       EvRead mode1 m2 None;
       EvWrite mode1 (Z.lor (Z.land m2 0x7F) sleep) None;
       EvWrite preescale 2 None; EvWrite mode1 m2 None;
       EvSleep (5 * Millisecond);
       EvWrite mode1 (Z.lor m2 0x80) None ]) /\
    0 <= m1 < 256 /\ 0 <= m2 < 256.
Proof.
  unfold init, setPWMFreq. cbv zeta.
  change (Float64.to_uint8 unrepr (Float64.Floor (prescale 1600)))
    with (prescale_byte unrepr 1600).
  rewrite prescale_byte_1600.
  unfold setAllPWM, initPWM, bind, ReadRegister, writeReg, WriteRegister,
    Sleep, ret.
  run_bus.
  eexists _, _, _. split; [reflexivity|]. split; apply uint8_range.
Qed.

Lemma Speed_1_128_good mh :
  exists mh',
    Speed bus 1 128 mh =
    (None, mh',
     [ EvWrite (led0OnL + 4 * 8) 0 None; EvWrite (led0OnH + 4 * 8) 0 None;
       EvWrite (led0OffL + 4 * 8) 0 None; EvWrite (led0OffH + 4 * 8) 8 None ]).
Proof.
  rewrite (Speed_known bus 1 128 mh 8 10 9) by reflexivity.
  unfold after, trace, setPWM, bind, writeReg, WriteRegister, ret. cbn.
  run_bus. eexists. reflexivity.
Qed.

End GoodBus.

(** C9: when opening the bus and every transaction on it succeed, [Open]
    followed by [Speed] of motor 1 at 128 performs, in this order: the four
    broadcast writes of zero; the mode and prescale sequence ([m1] and [m2]
    are the two values read from [mode1]; the prescale byte 2 is the value
    of the prescale formula at 1600 Hz); the four writes to the registers of channel 8 with the bytes of
    [on = 0], [off = 2048]. *)
Theorem Open_then_Speed_trace {D : Type} (bus : I2C D)
    (unrepr : Float64.float64 -> Z) (addr bus_no : Z) (d0 : D) :
  I2C_New bus (uint8 addr) bus_no = inl d0 ->
  (forall r v d, (I2C_WriteRegister bus r v d).1 = None) ->
  (forall r d, (I2C_ReadRegister bus r d).1.2 = None) ->
  exists mh mh' m1 m2,
    Open bus unrepr addr bus_no =
      (inl mh,
       [ EvWrite allLedOnL 0 None; EvWrite allLedOnH 0 None;
         EvWrite allLedOffL 0 None; EvWrite allLedOffH 0 None;
         EvWrite mode2 outdrv None; EvWrite mode1 allcall None;
         EvSleep (5 * Millisecond);
         EvRead mode1 m1 None; EvWrite mode1 (Z.ldiff m1 sleep) None;
         EvSleep (5 * Millisecond);
         EvRead mode1 m2 None;
         EvWrite mode1 (Z.lor (Z.land m2 0x7F) sleep) None;
         EvWrite preescale 2 None; EvWrite mode1 m2 None;
         EvSleep (5 * Millisecond);
         EvWrite mode1 (Z.lor m2 0x80) None ]) /\
    Speed bus 1 128 mh =
      (None, mh',
       [ EvWrite (led0OnL + 4 * 8) 0 None; EvWrite (led0OnH + 4 * 8) 0 None;
         EvWrite (led0OffL + 4 * 8) 0 None; EvWrite (led0OffH + 4 * 8) 8 None ]) /\
    prescale_reference 1600 = 2 /\
    decode 0 0 = 0 /\ decode 0 8 = 2048 /\
    0 <= m1 < 256 /\ 0 <= m2 < 256.
Proof.
  intros Hnew Hw Hr.
  destruct (init_good bus unrepr Hw Hr {| i2c := d0 |})
    as (mh & m1 & m2 & Hinit & Hm1 & Hm2).
  destruct (Speed_1_128_good bus Hw mh) as (mh' & Hspeed).
  exists mh, mh', m1, m2.
  split; [|split; [exact Hspeed | repeat split; lia]].
  unfold Open. rewrite Hnew, Hinit. reflexivity.
Qed.

Lemma Open_then_Speed_trace_witness :
  exists mh mh',
    Open Sim.regfile Sim.saturate 0x60 1 =
      (inl mh,
       [ EvWrite 0xFA 0 None; EvWrite 0xFB 0 None;
         EvWrite 0xFC 0 None; EvWrite 0xFD 0 None;
         EvWrite 0x01 0x04 None; EvWrite 0x00 0x01 None;
         EvSleep 5000000;
         EvRead 0x00 0x01 None; EvWrite 0x00 0x01 None;
         EvSleep 5000000;
         EvRead 0x00 0x01 None;
         EvWrite 0x00 0x11 None;
         EvWrite 0xFE 2 None;
         EvWrite 0x00 0x01 None;
         EvSleep 5000000;
         EvWrite 0x00 0x81 None ]) /\
    Speed Sim.regfile 1 128 mh =
      (None, mh',
       [ EvWrite 38 0 None; EvWrite 39 0 None;
         EvWrite 40 0 None; EvWrite 41 8 None ]).
Proof.
  destruct (Open_then_Speed_trace Sim.regfile Sim.saturate 0x60 1 ∅
              eq_refl (fun _ _ _ => eq_refl) (fun _ _ => eq_refl))
    as (mh & mh' & m1 & m2 & Hopen & Hspeed & _).
  exists mh, mh'. split; [|exact Hspeed].
  rewrite Hopen. vm_compute in Hopen.
  injection Hopen as _ <- _ <-. reflexivity.
Defined.

(** * Further properties of the driver *)

(** ** Failing transactions *)

Lemma outcomes_app (t1 t2 : list event) :
  outcomes (t1 ++ t2) = outcomes t1 ++ outcomes t2.
Proof. unfold outcomes. apply flat_map_app. Qed.

Lemma fail_fast_from_nil_iff (os : list (option error)) (res : option error) :
  fail_fast_from os res ->
  (res = None <-> Forall (fun o => o = None) os).
Proof.
  induction os as [|[e|] os IH]; simpl.
  - intros ->. split; [constructor | reflexivity].
  - intros [-> ->]. split; [discriminate|].
    intros H. inversion H as [|? ? H1 _]. discriminate H1.
  - intros H. destruct (IH H) as [I1 I2]. split.
    + intros E. constructor; [reflexivity | exact (I1 E)].
    + intros F. inversion F. auto.
Qed.

(** After transactions that all succeeded, what follows decides. *)
Lemma fail_fast_from_app (os1 os2 : list (option error)) (res : option error) :
  fail_fast_from os1 None -> fail_fast_from os2 res ->
  fail_fast_from (os1 ++ os2) res.
Proof.
  induction os1 as [|[e|] os1 IH]; simpl; intros H1 H2.
  - exact H2.
  - destruct H1 as [_ H1]. discriminate H1.
  - apply IH; assumption.
Qed.

Lemma fail_fast_from_app_nil (os : list (option error)) (res : option error) :
  fail_fast_from os res -> fail_fast_from (os ++ []) res.
Proof. rewrite app_nil_r. auto. Qed.

Section FailFast.

Context {D : Type} (bus : I2C D) (unrepr : Float64.float64 -> Z).

Ltac run_all :=
  repeat match goal with
  | |- context [I2C_WriteRegister bus ?r ?v ?d] =>
      destruct (I2C_WriteRegister bus r v d) as [[?|] ?]; cbn
  | |- context [I2C_ReadRegister bus ?r ?d] =>
      destruct (I2C_ReadRegister bus r d) as [[? [?|]] ?]; cbn
  end.

(** A call, and the next one only when the first returned nil. *)
Lemma fail_fast_guard (c1 c2 : M D (option error)) (mh : MotorHat D) :
  fail_fast (trace c1 mh) (result c1 mh) ->
  (forall mh', fail_fast (trace c2 mh') (result c2 mh')) ->
  let c := bind c1 (fun err => match err with
                               | Some _ => ret err
                               | None => c2
                               end) in
  fail_fast (trace c mh) (result c mh).
Proof.
  intros H1 H2. cbv zeta. unfold fail_fast, trace, result, bind in *.
  destruct (c1 mh) as [[[e|] mh1] t1]; cbn in *.
  - rewrite app_nil_r. exact H1.
  - specialize (H2 mh1). destruct (c2 mh1) as [[r2 mh2] t2]. cbn in *.
    rewrite outcomes_app. apply fail_fast_from_app; assumption.
Qed.

Lemma setAllPWM_fail_fast on off mh :
  fail_fast (trace (setAllPWM bus on off) mh) (result (setAllPWM bus on off) mh).
Proof.
  unfold fail_fast, trace, result, setAllPWM, bind, writeReg, WriteRegister, ret.
  run_all; cbn; repeat split.
Qed.

Lemma setPWM_fail_fast pin on off mh :
  fail_fast (trace (setPWM bus pin on off) mh) (result (setPWM bus pin on off) mh).
Proof.
  unfold fail_fast, trace, result, setPWM, bind, writeReg, WriteRegister, ret.
  run_all; cbn; repeat split.
Qed.

Lemma initPWM_fail_fast_aux mh :
  fail_fast (trace (initPWM bus) mh) (result (initPWM bus) mh).
Proof.
  unfold fail_fast, trace, result, initPWM, bind, ReadRegister, WriteRegister,
    Sleep, ret.
  run_all; cbn; repeat split.
Qed.

Lemma setPWMFreq_fail_fast_aux freq mh :
  fail_fast (trace (setPWMFreq bus unrepr freq) mh)
            (result (setPWMFreq bus unrepr freq) mh).
Proof.
  unfold setPWMFreq. cbv zeta.
  generalize (Float64.to_uint8 unrepr (Float64.Floor (prescale freq))). intros b.
  unfold fail_fast, trace, result, bind, ReadRegister, writeReg, WriteRegister,
    Sleep, ret.
  run_all; cbn; repeat split.
Qed.

Lemma init_fail_fast_aux mh :
  fail_fast (trace (init bus unrepr) mh) (result (init bus unrepr) mh).
Proof.
  unfold init.
  apply (fail_fast_guard (setAllPWM bus 0 0)); [apply setAllPWM_fail_fast|].
  intros mh1.
  apply (fail_fast_guard (initPWM bus)); [apply initPWM_fail_fast_aux|].
  intros mh2.
  pose proof (setPWMFreq_fail_fast_aux 1600 mh2) as H.
  unfold fail_fast, trace, result, bind, ret in *.
  destruct (setPWMFreq bus unrepr 1600 mh2) as [[[e|] mh3] t3]; cbn in *;
    rewrite app_nil_r; exact H.
Qed.

End FailFast.

Section Initialisation.

Context {D : Type} (bus : I2C D) (unrepr : Float64.float64 -> Z).

Ltac run_all :=
  repeat match goal with
  | |- context [I2C_WriteRegister bus ?r ?v ?d] =>
      destruct (I2C_WriteRegister bus r v d) as [[?|] ?]; cbn
  | |- context [I2C_ReadRegister bus ?r ?d] =>
      destruct (I2C_ReadRegister bus r d) as [[? [?|]] ?]; cbn
  end.

Ltac no_close :=
  let H := fresh in
  intros H; repeat (destruct H as [H|H]; [discriminate H|]); exact H.

(** [init] never closes the bus; when it returns nil it has performed
    thirteen transactions and slept three times. *)
Lemma init_shape mh :
  ~ In EvClose (trace (init bus unrepr) mh) /\
  (result (init bus unrepr) mh = None ->
   length (outcomes (trace (init bus unrepr) mh)) = 13%nat /\
   sleeps (trace (init bus unrepr) mh) =
     [5 * Millisecond; 5 * Millisecond; 5 * Millisecond]).
Proof.
  unfold init, setPWMFreq. cbv zeta.
  generalize (Float64.to_uint8 unrepr (Float64.Floor (prescale 1600))). intros b.
  unfold trace, result, setAllPWM, initPWM, bind, ReadRegister, writeReg,
    WriteRegister, Sleep, ret.
  run_all; (split; [no_close | intros E; try discriminate E; split; reflexivity]).
Qed.

End Initialisation.

Lemma clear_sleep_bits (m : Z) :
  Z.testbit (Z.ldiff m sleep) 4 = false /\
  forall n, n <> 4 -> Z.testbit (Z.ldiff m sleep) n = Z.testbit m n.
Proof.
  change sleep with (2 ^ 4). split.
  - rewrite Z.ldiff_spec, Z.pow2_bits_true by lia. apply andb_false_r.
  - intros n Hn. rewrite Z.ldiff_spec, Z.pow2_bits_false by congruence.
    apply andb_true_r.
Qed.

Lemma sleep_mode_bits (m : Z) :
  Z.testbit (Z.lor (Z.land m 0x7F) sleep) 4 = true /\
  Z.testbit (Z.lor (Z.land m 0x7F) sleep) 7 = false /\
  Z.testbit (Z.lor m 0x80) 7 = true.
Proof.
  split; [|split].
  - rewrite Z.lor_spec. change (Z.testbit sleep 4) with true. apply orb_true_r.
  - rewrite Z.lor_spec, Z.land_spec.
    change (Z.testbit sleep 7) with false. change (Z.testbit 0x7F 7) with false.
    rewrite andb_false_r. reflexivity.
  - rewrite Z.lor_spec. change (Z.testbit 0x80 7) with true. apply orb_true_r.
Qed.

(** X1: [initPWM] stops at its first failing transaction: that transaction is
    the last event of the trace (no write, read or sleep follows it) and its
    error is the result.  When [initPWM] returns nil the trace is the whole
    sequence: output mode, all-call, a 5 ms sleep, the read of [mode1], the
    value read written back with the sleep bit (bit 4) cleared and every
    other bit unchanged, and a second 5 ms sleep. *)
Theorem initPWM_stops_at_failure {D : Type} (bus : I2C D) (mh : MotorHat D) :
  fail_fast (trace (initPWM bus) mh) (result (initPWM bus) mh) /\
  match result (initPWM bus) mh with
  | None =>
      exists m,
        0 <= m < 256 /\
        trace (initPWM bus) mh =
          [ EvWrite mode2 outdrv None; EvWrite mode1 allcall None;
            EvSleep (5 * Millisecond);
            EvRead mode1 m None; EvWrite mode1 (Z.ldiff m sleep) None;
            EvSleep (5 * Millisecond) ] /\
        Z.testbit (Z.ldiff m sleep) 4 = false /\
        (forall n, n <> 4 -> Z.testbit (Z.ldiff m sleep) n = Z.testbit m n)
  | Some e =>
      exists r v,
        last (trace (initPWM bus) mh) = Some (EvWrite r v (Some e)) \/
        last (trace (initPWM bus) mh) = Some (EvRead r v (Some e))
  end.
Proof.
  split; [apply initPWM_fail_fast_aux|].
  unfold trace, result, initPWM, bind, ReadRegister, WriteRegister, Sleep, ret.
  repeat match goal with
  | |- context [I2C_WriteRegister bus ?r ?v ?d] =>
      destruct (I2C_WriteRegister bus r v d) as [[?|] ?]; cbn
  | |- context [I2C_ReadRegister bus ?r ?d] =>
      destruct (I2C_ReadRegister bus r d) as [[? [?|]] ?]; cbn
  end;
  try (eexists _, _; left; reflexivity);
  try (eexists _, _; right; reflexivity).
  eexists. split; [apply uint8_range|]. split; [reflexivity|].
  apply clear_sleep_bits.
Qed.

(** X2: [setPWMFreq] first reads [mode1].  When the read fails nothing else
    happens (no write, no sleep) and its error is returned.  When it succeeds
    the function sleeps 5 ms exactly once whatever becomes of the writes; the
    writes stop at the first failure, whose error is returned; and when the
    result is nil the trace is the whole sequence, in which the first value
    written to [mode1] has the sleep bit set and bit 7 clear and the last one
    has bit 7 set. *)
Theorem setPWMFreq_stops_at_failure {D : Type} (bus : I2C D)
    (unrepr : Float64.float64 -> Z) (freq : Z) (mh : MotorHat D) :
  let tr := trace (setPWMFreq bus unrepr freq) mh in
  let res := result (setPWMFreq bus unrepr freq) mh in
  fail_fast tr res /\
  exists m r0,
    0 <= m < 256 /\ head tr = Some (EvRead mode1 m r0) /\
    match r0 with
    | Some e => tr = [EvRead mode1 m (Some e)] /\ res = Some e
    | None =>
        sleeps tr = [5 * Millisecond] /\
        match res with
        | None =>
            tr = [ EvRead mode1 m None;
                   EvWrite mode1 (Z.lor (Z.land m 0x7F) sleep) None;
                   EvWrite preescale (prescale_byte unrepr freq) None;
                   EvWrite mode1 m None;
                   EvSleep (5 * Millisecond);
                   EvWrite mode1 (Z.lor m 0x80) None ]
        | Some _ => True
        end /\
        Z.testbit (Z.lor (Z.land m 0x7F) sleep) 4 = true /\
        Z.testbit (Z.lor (Z.land m 0x7F) sleep) 7 = false /\
        Z.testbit (Z.lor m 0x80) 7 = true
    end.
Proof.
  cbv zeta. split; [apply setPWMFreq_fail_fast_aux|].
  unfold setPWMFreq. cbv zeta.
  change (Float64.to_uint8 unrepr (Float64.Floor (prescale freq)))
    with (prescale_byte unrepr freq).
  generalize (prescale_byte unrepr freq). intros b.
  unfold trace, result, bind, ReadRegister, writeReg, WriteRegister, Sleep, ret.
  destruct (I2C_ReadRegister bus mode1 (i2c mh)) as [[m [e0|]] d]; cbn.
  { exists (uint8 m), (Some e0). split; [apply uint8_range|]. repeat split. }
  exists (uint8 m), None. split; [apply uint8_range|].
  repeat match goal with
  | |- context [I2C_WriteRegister bus ?r ?v ?d] =>
      destruct (I2C_WriteRegister bus r v d) as [[?|] ?]; cbn
  end;
  (split; [reflexivity|]); (split; [reflexivity|]);
  (split; [exact I || reflexivity | apply sleep_mode_bits]).
Qed.

(** X3: [init] runs [setAllPWM], [initPWM] and [setPWMFreq] and stops at the
    first failing transaction of any of them, returning its error: it
    returns nil exactly when every transaction succeeded.  It never closes
    the bus, and a run that returns nil has performed thirteen transactions
    and slept three times 5 ms. *)
Theorem init_stops_at_failure {D : Type} (bus : I2C D)
    (unrepr : Float64.float64 -> Z) (mh : MotorHat D) :
  let tr := trace (init bus unrepr) mh in
  let res := result (init bus unrepr) mh in
  fail_fast tr res /\
  (res = None <-> Forall (fun o => o = None) (outcomes tr)) /\
  ~ In EvClose tr /\
  match res with
  | None =>
      length (outcomes tr) = 13%nat /\
      sleeps tr = [5 * Millisecond; 5 * Millisecond; 5 * Millisecond]
  | Some _ => True
  end.
Proof.
  cbv zeta.
  pose proof (init_fail_fast_aux bus unrepr mh) as Hff.
  destruct (init_shape bus unrepr mh) as [Hclose Hok].
  split; [exact Hff|].
  split; [apply fail_fast_from_nil_iff; exact Hff|].
  split; [exact Hclose|].
  destruct (result (init bus unrepr) mh); [exact I | apply Hok; reflexivity].
Qed.

(** X4: [Open] returns a handle only after a run of [init] in which all thirteen
    transactions succeeded, and then the bus is not closed.  When it returns
    an error, either opening the bus failed and nothing was done, or a
    transaction of [init] failed with that error, no transaction followed it,
    and the bus was closed as the last event (and only then). *)
Theorem Open_closes_bus_on_failure {D : Type} (bus : I2C D)
    (unrepr : Float64.float64 -> Z) (addr bus_no : Z) :
  match Open bus unrepr addr bus_no with
  | (inl mh, tr) =>
      Forall (fun o => o = None) (outcomes tr) /\
      ~ In EvClose tr /\ length (outcomes tr) = 13%nat
  | (inr e, tr) =>
      (I2C_New bus (uint8 addr) bus_no = inr e /\ tr = []) \/
      (exists tr', tr = tr' ++ [EvClose] /\ ~ In EvClose tr' /\
                   fail_fast tr' (Some e))
  end.
Proof.
  unfold Open.
  destruct (I2C_New bus (uint8 addr) bus_no) as [d|e]; [|left; split; reflexivity].
  pose proof (init_fail_fast_aux bus unrepr {| i2c := d |}) as Hff.
  destruct (init_shape bus unrepr {| i2c := d |}) as [Hclose Hok].
  unfold trace, result in *.
  destruct (init bus unrepr {| i2c := d |}) as [[[e|] mh1] t1]; cbn in *.
  - right. exists t1. repeat split; assumption.
  - destruct (Hok eq_refl) as [Hlen _].
    split; [|split; assumption].
    apply (fail_fast_from_nil_iff _ None Hff). reflexivity.
Qed.

(** ** The motor commands on any bus *)

Lemma short_circuit_events ws tr res :
  short_circuit ws tr res ->
  Forall (fun ev => exists r v o, ev = EvWrite r v o /\ In (r, v) ws) tr.
Proof.
  induction 1 as [|r v ws tr res H IH|r v ws e].
  - constructor.
  - constructor.
    + exists r, v, None. split; [reflexivity | left; reflexivity].
    + eapply Forall_impl; [exact IH|].
      intros ev (r' & v' & o & -> & Hin). exists r', v', o.
      split; [reflexivity | right; exact Hin].
  - constructor; [|constructor].
    exists r, v, (Some e). split; [reflexivity | left; reflexivity].
Qed.

Lemma short_circuit_length ws tr res :
  short_circuit ws tr res ->
  (length tr <= length ws)%nat /\ (ws <> [] -> tr <> []).
Proof.
  induction 1 as [|r v ws tr res H [IH _]|r v ws e]; simpl.
  - split; [lia | intros H; contradiction].
  - split; [lia | intros _; discriminate].
  - split; [lia | intros _; discriminate].
Qed.

Lemma getMotor_ok_known (m pwm in1 in2 : Z) :
  getMotor m = (pwm, in1, in2, None) -> known_motor m.
Proof.
  intros E. unfold known_motor.
  destruct (Z.le_gt_cases 1 m); destruct (Z.le_gt_cases m 4); try lia;
    exfalso; rewrite getMotor_unknown in E by (unfold known_motor; lia);
    discriminate E.
Qed.

(** The two pin writes of a direction command on a motor of the table. *)
Lemma direction_pin_writes {D : Type} (bus : I2C D) (c : M D (option error))
    (m pwm in1 in2 : Z) (l1 l2 : bool) (mh : MotorHat D) :
  getMotor m = (pwm, in1, in2, None) ->
  c mh = bind (setPin bus in1 (if l1 then 1 else 0))
           (fun _ => bind (setPin bus in2 (if l2 then 1 else 0))
                       (fun _ => ret None)) mh ->
  result c mh = None /\
  exists t1 t2,
    trace c mh = t1 ++ t2 /\ pin_writes in1 l1 t1 /\ pin_writes in2 l2 t2 /\
    t1 <> [] /\ t2 <> [].
Proof.
  intros E Hc.
  assert (Hsc : forall ch (l : bool) t r,
             In ch [10; 11; 4; 5; 9; 12; 3; 6] ->
             short_circuit (duty_bytes ch (if l then 4096 else 0)
                                          (if l then 0 else 4096)) t r ->
             pin_writes ch l t /\ t <> []).
  { intros ch l t r Hch H. split.
    - exists r. simpl in Hch.
      repeat (destruct Hch as [<-|Hch]; [destruct l; exact H|]).
      contradiction.
    - apply (short_circuit_length _ _ _ H). discriminate. }
  assert (Hin : In in1 [10; 11; 4; 5; 9; 12; 3; 6] /\
                In in2 [10; 11; 4; 5; 9; 12; 3; 6]).
  { destruct (known_motor_cases m (getMotor_ok_known _ _ _ _ E))
      as [-> | [-> | [-> | ->]]];
      vm_compute in E; injection E as <- <- <-; simpl; tauto. }
  destruct Hin as [Hin1 Hin2].
  destruct (direction_pins bus c in1 (if l1 then 1 else 0) in2 (if l2 then 1 else 0)
              (if l1 then 4096 else 0) (if l1 then 0 else 4096)
              (if l2 then 4096 else 0) (if l2 then 0 else 4096) mh Hc)
    as (Hres & t1 & t2 & r1 & r2 & Htr & H1 & H2).
  - intros mh'. destruct l1; [apply setPin_1 | apply setPin_0].
  - intros mh'. destruct l2; [apply setPin_1 | apply setPin_0].
  - split; [exact Hres|]. exists t1, t2.
    destruct (Hsc in1 l1 t1 r1 Hin1 H1) as [P1 N1].
    destruct (Hsc in2 l2 t2 r2 Hin2 H2) as [P2 N2].
    repeat split; assumption.
Qed.

(** X5: for every motor of the table, with [in1] and [in2] its direction
    channels: [Forward] returns nil after writing channel [in1] high and then
    channel [in2] low, [Backward] after [in1] low and [in2] high, [Stop]
    after both low.  Both pins are always attempted: a failure while writing
    the first pin does not keep the command from writing the second. *)
Theorem direction_commands_write_both_pins {D : Type} (bus : I2C D)
    (m pwm in1 in2 : Z) (mh : MotorHat D) :
  getMotor m = (pwm, in1, in2, None) ->
  (result (Forward bus m) mh = None /\
   exists t1 t2,
     trace (Forward bus m) mh = t1 ++ t2 /\
     pin_writes in1 true t1 /\ pin_writes in2 false t2 /\ t1 <> [] /\ t2 <> []) /\
  (result (Backward bus m) mh = None /\
   exists t1 t2,
     trace (Backward bus m) mh = t1 ++ t2 /\
     pin_writes in1 false t1 /\ pin_writes in2 true t2 /\ t1 <> [] /\ t2 <> []) /\
  (result (Stop bus m) mh = None /\
   exists t1 t2,
     trace (Stop bus m) mh = t1 ++ t2 /\
     pin_writes in1 false t1 /\ pin_writes in2 false t2 /\ t1 <> [] /\ t2 <> []).
Proof.
  intros E. split; [|split].
  - apply (direction_pin_writes bus (Forward bus m) m pwm in1 in2 true false mh E).
    unfold Forward. rewrite E. reflexivity.
  - apply (direction_pin_writes bus (Backward bus m) m pwm in1 in2 false true mh E).
    unfold Backward. rewrite E. reflexivity.
  - apply (direction_pin_writes bus (Stop bus m) m pwm in1 in2 false false mh E).
    unfold Stop. rewrite E. reflexivity.
Qed.

Lemma direction_commands_write_both_pins_witness :
  let mh := {| i2c := 0%nat |} in
  result (Forward Sim.flaky 2) mh = None /\
  exists t1 t2,
    trace (Forward Sim.flaky 2) mh = t1 ++ t2 /\
    pin_writes 11 true t1 /\ pin_writes 12 false t2 /\ t1 <> [] /\ t2 <> [].
Proof.
  intros mh.
  apply (direction_commands_write_both_pins Sim.flaky 2 13 11 12 mh).
  reflexivity.
Defined.

(** The events of a command on a motor of the table are writes to the
    registers of one of the motor's three channels. *)
Lemma command_events {D : Type} (bus : I2C D) (m pwm in1 in2 : Z)
    (c : M D (option error)) (mh : MotorHat D) :
  motor_command bus m c ->
  getMotor m = (pwm, in1, in2, None) ->
  Forall (fun ev => exists r v o ch,
            ev = EvWrite r v o /\ In ch [pwm; in1; in2] /\
            In r (map fst (duty_bytes ch 0 0))) (trace c mh).
Proof.
  intros Hc E.
  assert (Hpin : forall ch on off t res,
             In ch [pwm; in1; in2] ->
             short_circuit (duty_bytes ch on off) t res ->
             Forall (fun ev => exists r v o ch,
                       ev = EvWrite r v o /\ In ch [pwm; in1; in2] /\
                       In r (map fst (duty_bytes ch 0 0))) t).
  { intros ch on off t res Hch H.
    eapply Forall_impl; [apply (short_circuit_events _ _ _ H)|].
    intros ev (r & v & o & -> & Hin). exists r, v, o, ch.
    split; [reflexivity|]. split; [exact Hch|].
    change (map fst (duty_bytes ch 0 0)) with (map fst (duty_bytes ch on off)).
    apply (in_map fst _ _ Hin). }
  assert (Hdir : forall (c' : M D (option error)) (l1 l2 : bool),
             c' mh = bind (setPin bus in1 (if l1 then 1 else 0))
                       (fun _ => bind (setPin bus in2 (if l2 then 1 else 0))
                                   (fun _ => ret None)) mh ->
             Forall (fun ev => exists r v o ch,
                       ev = EvWrite r v o /\ In ch [pwm; in1; in2] /\
                       In r (map fst (duty_bytes ch 0 0))) (trace c' mh)).
  { intros c' l1 l2 Hc'.
    destruct (direction_pins bus c' in1 (if l1 then 1 else 0) in2 (if l2 then 1 else 0)
                (if l1 then 4096 else 0) (if l1 then 0 else 4096)
                (if l2 then 4096 else 0) (if l2 then 0 else 4096) mh Hc')
      as (_ & t1 & t2 & r1 & r2 & -> & H1 & H2).
    - intros mh'. destruct l1; [apply setPin_1 | apply setPin_0].
    - intros mh'. destruct l2; [apply setPin_1 | apply setPin_0].
    - apply Forall_app. split.
      + eapply (Hpin in1); [simpl; tauto | exact H1].
      + eapply (Hpin in2); [simpl; tauto | exact H2]. }
  destruct Hc as [m s|m|m|m].
  - unfold trace at 1. rewrite (Speed_known bus m s mh pwm in1 in2 E). cbn [snd].
    eapply Hpin; [left; reflexivity | apply setPWM_short_circuit].
  - apply (Hdir (Forward bus m) true false). unfold Forward. rewrite E. reflexivity.
  - apply (Hdir (Backward bus m) false true). unfold Backward. rewrite E. reflexivity.
  - apply (Hdir (Stop bus m) false false). unfold Stop. rewrite E. reflexivity.
Qed.

Lemma command_unknown {D : Type} (bus : I2C D) (m : Z)
    (c : M D (option error)) (mh : MotorHat D) :
  motor_command bus m c -> ~ known_motor m ->
  c mh = (Some motor_not_found, mh, []).
Proof.
  intros Hc Hm. destruct Hc; unfold Speed, Forward, Backward, Stop;
    rewrite (getMotor_unknown _ Hm); reflexivity.
Qed.

Lemma known_motor_dec (m : Z) : known_motor m \/ ~ known_motor m.
Proof. unfold known_motor. lia. Qed.

(** X6: whatever the bus does, every event of a motor command is a write to a
    per-channel register (never a mode, prescale or broadcast register, never
    a read, a sleep or a close) of a channel of the motor addressed, and that
    channel belongs to no other motor of the table. *)
Theorem motor_commands_are_isolated {D : Type} (bus : I2C D) (m : Z)
    (c : M D (option error)) (mh : MotorHat D) (ev : event) :
  motor_command bus m c ->
  In ev (trace c mh) ->
  exists r v o,
    ev = EvWrite r v o /\
    led0OnL <= r < led0OnL + 4 * 16 /\
    In (channel_of_reg r) (motor_channels m) /\
    forall m', known_motor m' -> m' <> m ->
               ~ In (channel_of_reg r) (motor_channels m').
Proof.
  intros Hc Hin.
  destruct (known_motor_dec m) as [Hm|Hm].
  2:{ unfold trace in Hin. rewrite (command_unknown bus m c mh Hc Hm) in Hin.
      contradiction. }
  destruct (getMotor_known m Hm) as (pwm & in1 & in2 & E & _).
  pose proof (command_events bus m pwm in1 in2 c mh Hc E) as HF.
  rewrite Forall_forall in HF.
  destruct (HF ev (proj2 (list_elem_of_In _ _) Hin))
    as (r & v & o & ch & -> & Hch & Hr).
  exists r, v, o. split; [reflexivity|].
  destruct (known_motor_cases m Hm) as [-> | [-> | [-> | ->]]];
    vm_compute in E; injection E as <- <- <-;
    simpl in Hch; destruct Hch as [<- | [<- | [<- | []]]];
    vm_compute in Hr; destruct Hr as [<- | [<- | [<- | [<- | []]]]];
    (split; [unfold led0OnL; lia|]);
    (split; [vm_compute; tauto|]);
    intros m' Hm' Hne;
    destruct (known_motor_cases m' Hm') as [-> | [-> | [-> | ->]]];
    try congruence;
    vm_compute; intros H;
    repeat (destruct H as [H|H]; [discriminate H|]); exact H.
Qed.

Lemma motor_commands_are_isolated_witness :
  exists r v o,
    EvWrite 38 0 (Some Sim.EIO) = EvWrite r v o /\
    led0OnL <= r < led0OnL + 4 * 16 /\
    In (channel_of_reg r) (motor_channels 1) /\
    forall m', known_motor m' -> m' <> 1 ->
               ~ In (channel_of_reg r) (motor_channels m').
Proof.
  apply (motor_commands_are_isolated Sim.flaky 1 (Speed Sim.flaky 1 128)
           {| i2c := 0%nat |}).
  - constructor.
  - left. reflexivity.
Defined.

(** X7: whatever the bus does, a motor command returns nil exactly when the
    motor id is in the table; the only error it ever returns is the one of
    [getMotor], and then nothing was done on the bus. *)
Theorem motor_commands_nil_iff_known {D : Type} (bus : I2C D) (m : Z)
    (c : M D (option error)) (mh : MotorHat D) :
  motor_command bus m c ->
  (result c mh = None <-> known_motor m) /\
  (forall e, result c mh = Some e ->
             e = motor_not_found /\ trace c mh = [] /\ after c mh = mh).
Proof.
  intros Hc.
  destruct (known_motor_dec m) as [Hm|Hm].
  - assert (Hres : result c mh = None).
    { destruct (getMotor_known m Hm) as (pwm & in1 & in2 & E & _).
      unfold result.
      destruct Hc as [m s|m|m|m].
      - rewrite (Speed_known bus m s mh pwm in1 in2 E). reflexivity.
      - unfold Forward. rewrite E, two_pins. reflexivity.
      - unfold Backward. rewrite E, two_pins. reflexivity.
      - unfold Stop. rewrite E, two_pins. reflexivity. }
    split; [split; auto|]. intros e He. congruence.
  - unfold result, trace, after. rewrite (command_unknown bus m c mh Hc Hm). cbn.
    split; [split; [discriminate | contradiction]|].
    intros e He. injection He as <-. repeat split.
Qed.

Lemma motor_commands_nil_iff_known_witness :
  (result (Stop Sim.flaky 4) {| i2c := 0%nat |} = None <-> known_motor 4) /\
  (result (Stop Sim.flaky 7) {| i2c := 0%nat |} = None <-> known_motor 7).
Proof.
  split.
  - apply (motor_commands_nil_iff_known Sim.flaky 4 (Stop Sim.flaky 4)). constructor.
  - apply (motor_commands_nil_iff_known Sim.flaky 7 (Stop Sim.flaky 7)). constructor.
Defined.

(** ** Bytes and register addresses *)

Lemma low_byte_mod (x : Z) : uint8 (Z.land x 0xFF) = (x mod 65536) mod 256.
Proof.
  rewrite land_255. unfold uint8. rewrite Z.mod_mod by lia.
  change 65536 with (256 * 256). rewrite Z.rem_mul_r by lia.
  rewrite Z.mul_comm, Z.mod_add by lia. rewrite Z.mod_mod by lia. reflexivity.
Qed.

Lemma high_byte_mod (x : Z) : uint8 (Z.shiftr x 8) = (x mod 65536) / 256.
Proof.
  rewrite shiftr_8. unfold uint8.
  change 65536 with (256 * 256). rewrite Z.rem_mul_r by lia.
  rewrite Z.mul_comm, Z.div_add by lia.
  rewrite (Z.div_small (x mod 256)) by (apply Z.mod_pos_bound; lia).
  reflexivity.
Qed.

Lemma decode_low_high (x : Z) :
  decode (uint8 (Z.land x 0xFF)) (uint8 (Z.shiftr x 8)) = x mod 65536.
Proof.
  rewrite low_byte_mod, high_byte_mod. unfold decode.
  pose proof (Z.div_mod (x mod 65536) 256). lia.
Qed.

Lemma duty_bytes_low16 (pin on off on' off' : Z) :
  on' mod 65536 = on mod 65536 -> off' mod 65536 = off mod 65536 ->
  duty_bytes pin on' off' = duty_bytes pin on off.
Proof.
  intros Hon Hoff. unfold duty_bytes.
  rewrite !low_byte_mod, !high_byte_mod, Hon, Hoff. reflexivity.
Qed.

(** X8: [setPWM] keeps the low sixteen bits of [on] and of [off], whatever the
    channel: the two bytes it writes for each decode to the value modulo
    65536 (so 4096, the full-on or full-off bit, survives), and two calls
    whose values agree modulo 65536 do the same on the bus. *)
Theorem setPWM_keeps_sixteen_bits {D : Type} (bus : I2C D)
    (pin on off : Z) (mh : MotorHat D) :
  (exists r1 r2 r3 r4 onL onH offL offH,
     short_circuit [(r1, onL); (r2, onH); (r3, offL); (r4, offH)]
       (trace (setPWM bus pin on off) mh) (result (setPWM bus pin on off) mh) /\
     decode onL onH = on mod 65536 /\ decode offL offH = off mod 65536) /\
  (forall on' off',
     on' mod 65536 = on mod 65536 -> off' mod 65536 = off mod 65536 ->
     setPWM bus pin on' off' mh = setPWM bus pin on off mh).
Proof.
  split.
  - do 8 eexists. split; [apply setPWM_short_circuit|].
    split; apply decode_low_high.
  - intros on' off' Hon Hoff.
    rewrite !setPWM_chain, (duty_bytes_low16 pin on off on' off' Hon Hoff).
    reflexivity.
Qed.

Lemma setPWM_keeps_sixteen_bits_witness :
  setPWM Sim.regfile 3 (4096 + 65536) (-65536) {| i2c := ∅ |} =
  setPWM Sim.regfile 3 4096 0 {| i2c := ∅ |}.
Proof.
  apply (setPWM_keeps_sixteen_bits Sim.regfile 3 4096 0 {| i2c := ∅ |});
    reflexivity.
Defined.

(** X9: [setPWM] does not check its channel: the channel counts modulo 64.
    For the channels 0..61 its trace is the write of the four bytes to the
    registers [led0OnL + 4 * channel] and the three after it; for a channel
    that is 62 modulo 64 it is the write of the same four bytes to the
    prescale register, register 255, [mode1] and [mode2].  The write is cut
    short only by a failure of the bus. *)
Theorem setPWM_channel_wraps {D : Type} (bus : I2C D)
    (pin on off : Z) (mh : MotorHat D) :
  setPWM bus pin on off mh = setPWM bus (pin mod 64) on off mh /\
  (0 <= pin <= 61 ->
   short_circuit
     (channel_regs pin (uint8 (Z.land on 0xFF)) (uint8 (Z.shiftr on 8))
                       (uint8 (Z.land off 0xFF)) (uint8 (Z.shiftr off 8)))
     (trace (setPWM bus pin on off) mh) (result (setPWM bus pin on off) mh)) /\
  (pin mod 64 = 62 ->
   short_circuit
     [ (preescale, uint8 (Z.land on 0xFF)); (255, uint8 (Z.shiftr on 8));
       (mode1, uint8 (Z.land off 0xFF)); (mode2, uint8 (Z.shiftr off 8)) ]
     (trace (setPWM bus pin on off) mh) (result (setPWM bus pin on off) mh)).
Proof.
  assert (E : uint8 (4 * pin) = 4 * (pin mod 64)).
  { unfold uint8. change 256 with (4 * 64).
    rewrite Z.mul_mod_distr_l by lia. reflexivity. }
  assert (E' : uint8 (4 * (pin mod 64)) = 4 * (pin mod 64)).
  { apply uint8_small. pose proof (Z.mod_pos_bound pin 64). lia. }
  pose proof (setPWM_short_circuit bus pin on off mh) as H.
  split; [|split].
  - rewrite !setPWM_chain. unfold duty_bytes. rewrite E, E'. reflexivity.
  - intros Hp.
    unfold channel_regs, duty_bytes, led0OnL, led0OnH, led0OffL, led0OffH in *.
    rewrite (uint8_small (4 * pin)) in H by lia.
    rewrite !(uint8_small (_ + 4 * pin)) in H by lia. exact H.
  - intros Hp. unfold duty_bytes in H. rewrite E, Hp in H. exact H.
Qed.

Lemma setPWM_channel_wraps_witness :
  let mh := {| i2c := (∅ : gmap Z Z) |} in
  trace (setPWM Sim.regfile 15 0 4096) mh =
    [ EvWrite 66 0 None; EvWrite 67 0 None; EvWrite 68 0 None; EvWrite 69 16 None ] /\
  trace (setPWM Sim.regfile 126 0 4096) mh =
    [ EvWrite preescale 0 None; EvWrite 255 0 None;
      EvWrite mode1 0 None; EvWrite mode2 16 None ].
Proof.
  intros mh.
  assert (Hok : forall ws tr res,
             short_circuit ws tr res -> res = None ->
             tr = map (fun w => EvWrite w.1 w.2 None) ws).
  { induction 1 as [|r v ws tr res H IH|r v ws e]; intros Hres.
    - reflexivity.
    - simpl. rewrite (IH Hres). reflexivity.
    - discriminate Hres. }
  split.
  - apply (Hok _ _ _ (proj1 (proj2 (setPWM_channel_wraps Sim.regfile 15 0 4096 mh))
                        ltac:(lia))).
    reflexivity.
  - apply (Hok _ _ _ (proj2 (proj2 (setPWM_channel_wraps Sim.regfile 126 0 4096 mh))
                        eq_refl)).
    reflexivity.
Defined.

(** X10: [setAllPWM] writes the four broadcast registers 0xFA..0xFD in order,
    stopping at the first failure, whose error it returns; the bytes decode
    to [on] and [off] modulo 65536. *)
Theorem setAllPWM_broadcast_bytes {D : Type} (bus : I2C D)
    (on off : Z) (mh : MotorHat D) :
  exists onL onH offL offH,
    short_circuit
      [(allLedOnL, onL); (allLedOnH, onH); (allLedOffL, offL); (allLedOffH, offH)]
      (trace (setAllPWM bus on off) mh) (result (setAllPWM bus on off) mh) /\
    (0 <= onL < 256 /\ 0 <= onH < 256 /\ 0 <= offL < 256 /\ 0 <= offH < 256) /\
    decode onL onH = on mod 65536 /\ decode offL offH = off mod 65536.
Proof.
  do 4 eexists. split.
  - rewrite setAllPWM_chain. apply chain_short_circuit.
  - split; [repeat split; apply uint8_range|].
    split; apply decode_low_high.
Qed.

(** ** The prescale byte over all frequencies that have one *)

(** Every frequency from 24 to 6424, checked by evaluation: the [float64]
    result is the value of the formula, it is at most 253, and the formula
    does not grow from one frequency to the next. *)
Lemma prescale_full_range :
  forallb (fun f =>
             is_uint8 (Float64.Floor (prescale f)) (prescale_reference f)
             && (prescale_reference f <=? 253)
             && (prescale_reference (f + 1) <=? prescale_reference f))
          (seqZ 24 6401) = true.
Proof. vm_compute. reflexivity. Qed.

Lemma prescale_full_range_at (f : Z) :
  24 <= f <= 6424 ->
  is_uint8 (Float64.Floor (prescale f)) (prescale_reference f) = true /\
  prescale_reference f <= 253 /\
  prescale_reference (f + 1) <= prescale_reference f.
Proof.
  intros Hf. pose proof prescale_full_range as H.
  rewrite forallb_forall in H.
  assert (Hin : f ∈ seqZ 24 6401) by (apply elem_of_seqZ; lia).
  specialize (H f (proj1 (list_elem_of_In _ _) Hin)).
  apply andb_prop in H as [H H3]. apply andb_prop in H as [H1 H2].
  apply Z.leb_le in H2, H3. auto.
Qed.

Lemma prescale_reference_antitone (n : nat) (f : Z) :
  24 <= f -> f + Z.of_nat n <= 6424 ->
  prescale_reference (f + Z.of_nat n) <= prescale_reference f.
Proof.
  induction n as [|n IH]; intros Hf Hg.
  - rewrite Z.add_0_r. lia.
  - rewrite Nat2Z.inj_succ in *.
    destruct (prescale_full_range_at (f + Z.of_nat n) ltac:(lia)) as (_ & _ & Hstep).
    replace (f + Z.succ (Z.of_nat n)) with (f + Z.of_nat n + 1) by lia.
    specialize (IH Hf ltac:(lia)). lia.
Qed.

(** X11: for every frequency from 24 to 6424 Hz the byte [setPWMFreq] computes is
    the value of [floor (25_000_000 / 4096 / f - 1 + 0.05)], whatever the
    implementation does with unrepresentable values; it lies in [0, 253] and
    does not grow with the frequency.  The range cannot be extended: at 23 Hz
    and at 6425 Hz the [float64] value is no [uint8] and the byte written is
    the implementation's choice. *)
Theorem prescale_byte_full_range (unrepr : Float64.float64 -> Z) (f : Z) :
  24 <= f <= 6424 ->
  prescale_byte unrepr f = prescale_reference f /\
  0 <= prescale_byte unrepr f <= 253 /\
  (forall g, f <= g <= 6424 -> prescale_byte unrepr g <= prescale_byte unrepr f) /\
  prescale_byte unrepr 23 = uint8 (unrepr (Float64.Floor (prescale 23))) /\
  prescale_byte unrepr 6425 = uint8 (unrepr (Float64.Floor (prescale 6425))).
Proof.
  intros Hf.
  assert (E : forall g, 24 <= g <= 6424 ->
                prescale_byte unrepr g = prescale_reference g).
  { intros g Hg. apply is_uint8_to_uint8. apply (prescale_full_range_at g Hg). }
  assert (R : forall g, 24 <= g <= 6424 -> 0 <= prescale_reference g).
  { intros g Hg. pose proof (prescale_reference_antitone (Z.to_nat (6424 - g)) g) as H.
    rewrite Z2Nat.id in H by lia.
    replace (g + (6424 - g)) with 6424 in H by lia.
    change (prescale_reference 6424) with 0 in H. lia. }
  split; [apply E; exact Hf|]. split; [|split].
  - rewrite E by exact Hf. split; [apply R; exact Hf|].
    apply (prescale_full_range_at f Hf).
  - intros g Hg. rewrite !E by lia.
    pose proof (prescale_reference_antitone (Z.to_nat (g - f)) f) as H.
    rewrite Z2Nat.id in H by lia.
    replace (f + (g - f)) with g in H by lia. lia.
  - split; reflexivity.
Qed.

Lemma prescale_byte_full_range_witness :
  prescale_byte Sim.saturate 50 = prescale_reference 50 /\
  0 <= prescale_byte Sim.saturate 50 <= 253 /\
  prescale_byte Sim.saturate 60 <= prescale_byte Sim.saturate 50.
Proof.
  assert (Hf : 24 <= 50 <= 6424) by lia.
  destruct (prescale_byte_full_range Sim.saturate 50 Hf) as (H1 & H2 & H3 & _).
  split; [exact H1|]. split; [exact H2|]. apply H3. lia.
Defined.
